(** * The sqlserver input plugin: query selection, row decoding, gather cycle

    A shallow embedding of [plugins/inputs/sqlserver/sqlserver.go].

    - Go maps are stdpp [gmap]s, the [map[string]struct{}] lookup sets are
      [gset]s.
    - The SQL texts are opaque to the plugin: a [Script] is the name of the
      Go constant that holds the text.
    - The database driver, the registry and the clock are the environment;
      what they answer is a parameter of every run.
    - The accumulator is a log of the calls made on it. *)

From Stdlib Require Import ZArith.
From stdpp Require Import base option list strings gmap.

Open Scope string_scope.
Open Scope Z_scope.
Open Scope list_scope.

(** ** Data model *)

(** The query texts, by the name of the constant ([const sqlDiskUsageV2
    string = ...], and so on). The plugin never looks inside a text. *)
Inductive Script : Type :=
  | sqlAzureDBResourceStats | sqlAzureDBResourceGovernance
  | sqlPerformanceCountersV2 | sqlWaitStatsCategorizedV2 | sqlDatabaseIOV2
  | sqlServerPropertiesV2 | sqlMemoryClerkV2 | sqlServerSchedulersV2
  | sqlServerRequestsV2 | sqlServerVolumeSpaceV2 | sqlServerCpuV2
  | alwaysOnHealthV2 | sqlCachedPlansV2 | sqlInstanceWaitsV2
  | sqlPageLifeExpectancyV2 | sqlLogUsageV2 | sqlDatabasesByInstanceV2
  | sqlDatabasesOnAGV2 | sqlJobRunsV2 | sqlDatabasePropertiesV2
  | sqlBackupsV2 | sqlOrphanedUsersV2 | sqlUsersSysadminV2
  | sqlLockedUsersV2 | sqlPolicyCheckedV2 | sqlDiskUsageV2
  | sqlPerformanceCounters | sqlWaitStatsCategorized | sqlCPUHistory
  | sqlDatabaseIO | sqlDatabaseSize | sqlDatabaseStats
  | sqlDatabaseProperties | sqlMemoryClerk | sqlVolumeSpace
  | sqlPerformanceMetrics.

#[global] Instance Script_eq_dec : EqDecision Script.
Proof. solve_decision. Defined.

(** [type Query struct { Script string; OrderedColumns []string }] *)
Record Query : Type := mkQuery {
  Script_of : Script;
  OrderedColumns : list string
}.

#[global] Instance Query_eq_dec : EqDecision Query.
Proof. solve_decision. Defined.

(** [type SQLServer struct]; [QueryVersion] is a Go [int]. *)
Record SQLServer : Type := mkSQLServer {
  Servers : list string;
  QueryVersion : Z;
  AzureDB : bool;
  IncludeQuery : list string;
  ExcludeQuery : list string;
  LocalInstancesAutoDiscovery : bool;
  TagKeys : list string;
  includeQueries : gset string;
  excludeQueries : gset string;
  tags : gset string;
  queries : gmap string Query;
  isInitialized : bool
}.

(** The zero-valued lookup sets and flag of a freshly configured plugin. *)
Definition configure (servers : list string) (version : Z) (azure : bool)
    (include exclude : list string) (discover : bool)
    (tagKeys : list string) : SQLServer :=
  {| Servers := servers; QueryVersion := version; AzureDB := azure;
     IncludeQuery := include; ExcludeQuery := exclude;
     LocalInstancesAutoDiscovery := discover; TagKeys := tagKeys;
     includeQueries := ∅; excludeQueries := ∅; tags := ∅;
     queries := ∅; isInitialized := false |}.

(** ** Query selection *)

(** [for _, query := range l { m[query] = empty }] on a fresh map. *)
Definition nameSet (l : list string) : gset string :=
  foldl (fun m query => {[query]} ∪ m) ∅ l.

Definition initIncludeQueries (s : SQLServer) : SQLServer :=
  {| Servers := Servers s; QueryVersion := QueryVersion s;
     AzureDB := AzureDB s; IncludeQuery := IncludeQuery s;
     ExcludeQuery := ExcludeQuery s;
     LocalInstancesAutoDiscovery := LocalInstancesAutoDiscovery s;
     TagKeys := TagKeys s;
     includeQueries := nameSet (IncludeQuery s);
     excludeQueries := excludeQueries s; tags := tags s;
     queries := queries s; isInitialized := isInitialized s |}.

Definition initExcludeQueries (s : SQLServer) : SQLServer :=
  {| Servers := Servers s; QueryVersion := QueryVersion s;
     AzureDB := AzureDB s; IncludeQuery := IncludeQuery s;
     ExcludeQuery := ExcludeQuery s;
     LocalInstancesAutoDiscovery := LocalInstancesAutoDiscovery s;
     TagKeys := TagKeys s;
     includeQueries := includeQueries s;
     excludeQueries := nameSet (ExcludeQuery s); tags := tags s;
     queries := queries s; isInitialized := isInitialized s |}.

Definition initTags (s : SQLServer) : SQLServer :=
  {| Servers := Servers s; QueryVersion := QueryVersion s;
     AzureDB := AzureDB s; IncludeQuery := IncludeQuery s;
     ExcludeQuery := ExcludeQuery s;
     LocalInstancesAutoDiscovery := LocalInstancesAutoDiscovery s;
     TagKeys := TagKeys s;
     includeQueries := includeQueries s;
     excludeQueries := excludeQueries s; tags := nameSet (TagKeys s);
     queries := queries s; isInitialized := isInitialized s |}.

(** The closure [filter] of [initQueries] ([filter] itself is stdpp's list
    filter). Each of the two tests assigns [shouldInclude]. *)
Definition queryFilter (s : SQLServer) (queryMetricName : string) : bool :=
  let shouldInclude := true in
  let shouldInclude :=
    if bool_decide (0 < size (includeQueries s))%nat
    then bool_decide (queryMetricName ∈ includeQueries s)
    else shouldInclude in
  let shouldInclude :=
    if bool_decide (0 < size (excludeQueries s))%nat
    then negb (bool_decide (queryMetricName ∈ excludeQueries s))
    else shouldInclude in
  shouldInclude.

(** The three runs of [if filter(name) { queries[name] = Query{Script: ...} }]
    statements, in the order of the source. *)
Definition azureCatalog : list (string * Script) :=
  [ ("AzureDBResourceStats", sqlAzureDBResourceStats);
    ("AzureDBResourceGovernance", sqlAzureDBResourceGovernance) ].

Definition catalogV2 : list (string * Script) :=
  [ ("PerformanceCounters", sqlPerformanceCountersV2);
    ("WaitStatsCategorized", sqlWaitStatsCategorizedV2);
    ("DatabaseIO", sqlDatabaseIOV2);
    ("ServerProperties", sqlServerPropertiesV2);
    ("MemoryClerk", sqlMemoryClerkV2);
    ("Schedulers", sqlServerSchedulersV2);
    ("SqlRequests", sqlServerRequestsV2);
    ("VolumeSpace", sqlServerVolumeSpaceV2);
    ("Cpu", sqlServerCpuV2);
    ("AlwaysOnHealth", alwaysOnHealthV2);
    ("CachedPlans", sqlCachedPlansV2);
    ("InstanceWaits", sqlInstanceWaitsV2);
    ("PageLifeExpectancy", sqlPageLifeExpectancyV2);
    ("LogUsage", sqlLogUsageV2);
    ("DatabasesByInstance", sqlDatabasesByInstanceV2);
    ("DatabasesOnAG", sqlDatabasesOnAGV2);
    ("JobRuns", sqlJobRunsV2);
    ("DatabaseProperties", sqlDatabasePropertiesV2);
    ("Backups", sqlBackupsV2);
    ("OrphanedUsers", sqlOrphanedUsersV2);
    ("UsersSysadmin", sqlUsersSysadminV2);
    ("LockedUsers", sqlLockedUsersV2);
    ("PolicyChecked", sqlPolicyCheckedV2);
    ("DiskUsage", sqlDiskUsageV2) ].

Definition catalogV1 : list (string * Script) :=
  [ ("PerformanceCounters", sqlPerformanceCounters);
    ("WaitStatsCategorized", sqlWaitStatsCategorized);
    ("CPUHistory", sqlCPUHistory);
    ("DatabaseIO", sqlDatabaseIO);
    ("DatabaseSize", sqlDatabaseSize);
    ("DatabaseStats", sqlDatabaseStats);
    ("DatabaseProperties", sqlDatabaseProperties);
    ("MemoryClerk", sqlMemoryClerk);
    ("VolumeSpace", sqlVolumeSpace);
    ("PerformanceMetrics", sqlPerformanceMetrics) ].

(** One guarded assignment, and a run of them. *)
Definition addQuery (s : SQLServer) (qs : gmap string Query)
    (entry : string * Script) : gmap string Query :=
  if queryFilter s entry.1
  then <[entry.1 := mkQuery entry.2 []]> qs
  else qs.

Definition addQueries (s : SQLServer) (entries : list (string * Script))
    (qs : gmap string Query) : gmap string Query :=
  foldl (addQuery s) qs entries.

Definition withQueries (s : SQLServer) (qs : gmap string Query) : SQLServer :=
  {| Servers := Servers s; QueryVersion := QueryVersion s;
     AzureDB := AzureDB s; IncludeQuery := IncludeQuery s;
     ExcludeQuery := ExcludeQuery s;
     LocalInstancesAutoDiscovery := LocalInstancesAutoDiscovery s;
     TagKeys := TagKeys s;
     includeQueries := includeQueries s;
     excludeQueries := excludeQueries s; tags := tags s;
     queries := qs; isInitialized := true |}.

Definition initQueries (s : SQLServer) : SQLServer :=
  let s := initIncludeQueries s in
  let s := initExcludeQueries s in
  let s := initTags s in
  let queries : gmap string Query := ∅ in
  let queries :=
    if AzureDB s then addQueries s azureCatalog queries else queries in
  let queries :=
    if (QueryVersion s =? 2)%Z
    then addQueries s catalogV2 queries
    else addQueries s catalogV1 queries in
  withQueries s queries.

(** The catalog a configuration draws from: the names the source tests, each
    with the text it would bind. *)
Definition catalog (azure : bool) (version : Z) : list (string * Script) :=
  (if azure then azureCatalog else []) ++
  (if (version =? 2)%Z then catalogV2 else catalogV1).

(** The selection as the specification words it, (catalog ∩ I) − E, to be
    compared with [initQueries]. *)
Definition selectedBySpec (cat : list (string * Script))
    (I E : list string) (name : string) : option Query :=
  if bool_decide (name ∈ I) && negb (bool_decide (name ∈ E))
  then (fun sc => mkQuery sc []) <$> (list_to_map cat : gmap string Script) !! name
  else None.

(** ** The environment and the accumulator *)

(** Go's [error], by its message; [None] is [nil]. *)
Definition error : Type := string.

(** A scanned column value, an [interface{}] filled by the driver. The
    float and time payloads are carried as integers (bits, nanoseconds):
    the plugin only moves them. *)
Inductive value : Type :=
  | VNil
  | VInt (n : Z)
  | VFloat (bits : Z)
  | VBool (b : bool)
  | VBytes (bs : string)
  | VString (str : string)
  | VTime (unixNano : Z).

#[global] Instance value_eq_dec : EqDecision value.
Proof. solve_decision. Defined.

(** The arguments of one [acc.AddFields(measurement, fields, tags, t)]. *)
Record Metric : Type := mkMetric {
  measurement : string;
  fields : gmap string value;
  metricTags : gmap string string;
  timestamp : Z
}.

(** What a unit does to the outside, in order. *)
Inductive event : Type :=
  | ConnOpen (server : string)
  | ConnClose (server : string)
  | RowsClose (server : string)
  | AddFields (m : Metric)
  | AddError (err : error).

(** One row of a cursor: what [row.Scan] stores or fails with, and what
    [time.Now()] answers when the row is decoded. *)
Record Row : Type := mkRow {
  scanned : error + list value;
  now : Z
}.

(** A cursor: the answer of [rows.Columns()], the rows [rows.Next()]
    delivers, and the answer of [rows.Err()] once [Next] has said no. *)
Record Rows : Type := mkRows {
  Columns : error + list string;
  Next : list Row;
  Err : option error
}.

(** The collaborators of one gather cycle. *)
Record World : Type := mkWorld {
  sql_Open : string -> option error;
  conn_Query : string -> Script -> error + Rows;
  getLocalInstances : error + list string;
  os_Hostname : error + string;
  strings_ToUpper : string -> string
}.

(** [database/sql]'s [Scan]: it refuses a destination count that differs
    from the cursor's column count, and otherwise stores the row's values
    in the destinations, in order. *)
Definition Scan (row : Row) (ndest : nat) : error + list value :=
  match scanned row with
  | inl err => inl err
  | inr vals =>
    if decide (length vals = ndest) then inr vals
    else inl "sql: wrong number of destination arguments in Scan"
  end.

(** ** Control: a log of events, and a result that may be a panic *)

Inductive result (A : Type) : Type :=
  | Done (a : A)
  | Panicked.
Arguments Done {A} a.
Arguments Panicked {A}.

Definition M (A : Type) : Type := list event * result A.

Definition ret {A} (a : A) : M A := ([], Done a).

Definition bind {A B} (m : M A) (k : A -> M B) : M B :=
  match m with
  | (t, Done a) => let r := k a in (t ++ r.1, r.2)
  | (t, Panicked) => (t, Panicked)
  end.

Definition emit (e : event) : M unit := ([e], Done tt).

(** [defer e.Close()] before [body]: the call runs when the function is
    left, by a return or by a panic. *)
Definition defer {A} (e : event) (body : M A) : M A := (body.1 ++ [e], body.2).

(** A pure step that may panic, inside [M]. *)
Definition lift {A} (r : result A) : M A := ([], r).

Notation "x <- m ;; k" := (bind m (fun x => k))
  (at level 100, m at next level, right associativity).
Notation "m ;;; k" := (bind m (fun _ => k))
  (at level 100, right associativity).

(** ** Row decoding *)

(** [measurement], [tags] and [fields] of [accRow] while it loops. *)
Record decoded : Type := mkDecoded {
  d_measurement : string;
  d_tags : gmap string string;
  d_fields : gmap string value
}.

(** [v.(string)]: the one-result type assertion panics on anything that is
    not a string, [nil] included. *)
Definition assertString (v : value) : result string :=
  match v with
  | VString str => Done str
  | _ => Panicked
  end.

(** The map from column name to its [*interface{}], and [columnVars]. A
    pointer is the index of its cell in [columnVars]; a repeated name keeps
    the pointer stored last. *)
Definition columnCells (columns : list string) : gmap string nat * nat :=
  foldl (fun acc column => (<[column := acc.2]> acc.1, S acc.2)) (∅, 0%nat) columns.

Definition isTag (s : SQLServer) (header : string) : bool :=
  bool_decide (header ∈ tags s).

(** [*val]: the cell a pointer leads to, in the store [cells] that [Scan]
    has filled. A cell that was never written holds [nil]. *)
Definition cellAt (cells : list value) (val : nat) : value :=
  default VNil (cells !! val).

(** The body of [for header, val := range columnMap]. *)
Definition classifyColumn (s : SQLServer) (cells : list value)
    (header : string) (val : nat) (acc : result decoded) : result decoded :=
  match acc with
  | Panicked => Panicked
  | Done d =>
    let v := cellAt cells val in
    if decide (header = "measurement") then
      match assertString v with
      | Done str => Done (mkDecoded str (d_tags d) (d_fields d))
      | Panicked => Panicked
      end
    else if isTag s header then
      match assertString v with
      | Done str => Done (mkDecoded (d_measurement d) (<[header := str]> (d_tags d)) (d_fields d))
      | Panicked => Panicked
      end
    else Done (mkDecoded (d_measurement d) (d_tags d) (<[header := v]> (d_fields d)))
  end.

(** The loop over [columnMap]. Go visits a map in no fixed order; the loop
    is run here in the order of [map_fold], and [classify_any_order] below
    shows that the order does not matter. *)
Definition classify (s : SQLServer) (cells : list value)
    (columnMap : gmap string nat) : result decoded :=
  map_fold (classifyColumn s cells) (Done (mkDecoded "" ∅ ∅)) columnMap.

Definition accRow (s : SQLServer) (query : Query) (row : Row) : M (option error) :=
  let '(columnMap, ncells) := columnCells (OrderedColumns query) in
  match Scan row ncells with
  | inl err => ret (Some err)
  | inr cells =>
    d <- lift (classify s cells columnMap) ;;
    emit (AddFields (mkMetric (d_measurement d) (d_fields d) (d_tags d) (now row))) ;;;
    ret None
  end.

(** ** One unit: a server and a query *)

(** [for rows.Next() { ... }] and the final [return rows.Err()]. *)
Fixpoint rowLoop (s : SQLServer) (query : Query) (rows : list Row)
    (final : option error) : M (option error) :=
  match rows with
  | [] => ret final
  | row :: rest =>
    err <- accRow s query row ;;
    match err with
    | Some e => ret (Some e)
    | None => rowLoop s query rest final
    end
  end.

Definition gatherServer (w : World) (s : SQLServer) (server : string)
    (query : Query) : M (option error) :=
  match sql_Open w server with
  | Some err => ret (Some err)
  | None =>
    emit (ConnOpen server) ;;;
    defer (ConnClose server)
      match conn_Query w server (Script_of query) with
      | inl err => ret (Some err)
      | inr rows =>
        defer (RowsClose server)
          match Columns rows with
          | inl err => ret (Some err)
          | inr columns =>
            let query := mkQuery (Script_of query) columns in
            rowLoop s query (Next rows) (Err rows)
          end
      end
  end.

(** Modelled from the spec: the accumulator's error channel, which is not
    part of this source. It "accepts one error per failed unit": a [nil]
    handed to [AddError] by a unit that succeeded is not an error of the
    collection. *)
Definition acc_AddError (err : option error) : M unit :=
  match err with
  | Some e => emit (AddError e)
  | None => ret tt
  end.

(** The body of the goroutine: [acc.AddError(s.gatherServer(serv, query,
    acc))]. Nothing recovers a panic here. *)
Definition gatherUnit (w : World) (s : SQLServer) (server : string)
    (query : Query) : M unit :=
  err <- gatherServer w s server query ;;
  acc_AddError err.

(** ** The gather cycle *)

Definition withServers (s : SQLServer) (servers : list string) : SQLServer :=
  {| Servers := servers; QueryVersion := QueryVersion s;
     AzureDB := AzureDB s; IncludeQuery := IncludeQuery s;
     ExcludeQuery := ExcludeQuery s;
     LocalInstancesAutoDiscovery := LocalInstancesAutoDiscovery s;
     TagKeys := TagKeys s;
     includeQueries := includeQueries s;
     excludeQueries := excludeQueries s; tags := tags s;
     queries := queries s; isInitialized := isInitialized s |}.

Definition includeConnStringsForLocalInstances (w : World) (s : SQLServer)
    : SQLServer :=
  match getLocalInstances w with
  | inr instances =>
    match os_Hostname w with
    | inr hostname =>
      withServers s
        (foldl (fun servers instance =>
                  if decide (strings_ToUpper w instance = "MSSQLSERVER")
                  then servers ++ ["Server=" +:+ hostname +:+ ";Integrated Security=SSPI;"]
                  else servers ++ ["Server=" +:+ hostname +:+ "\" +:+ instance
                                     +:+ ";Integrated Security=SSPI;"])
               (Servers s) instances)
    | inl _ => s
    end
  | inl _ => s
  end.

(** The first statement of [Gather]. *)
Definition initialize (w : World) (s : SQLServer) : SQLServer :=
  if isInitialized s then s
  else
    let s := initQueries s in
    if LocalInstancesAutoDiscovery s
    then includeConnStringsForLocalInstances w s
    else s.

(** The pairs of the two nested [range] loops: a server, and a query with
    the name it is stored under. *)
Definition units (s : SQLServer) : list (string * (string * Query)) :=
  flat_map (fun serv => (fun q => (serv, q)) <$> map_to_list (queries s))
           (Servers s).

(** One goroutine per pair. *)
Definition goroutines (w : World) (s : SQLServer) : list (M unit) :=
  (fun u => gatherUnit w s u.1 u.2.2) <$> units s.

(** The events of goroutine [i], each marked with [i]. *)
Definition tagged (i : nat) (t : list event) : list (nat * event) :=
  (fun e => (i, e)) <$> t.

Definition taggedTraces (gs : list (M unit)) : list (list (nat * event)) :=
  imap (fun i g => tagged i g.1) gs.

(** The goroutines run concurrently: the events of a cycle are those of the
    goroutines, each goroutine's in its own order, merged in any way. *)
Inductive interleave {A : Type} : list (list A) -> list A -> Prop :=
  | interleave_done ts :
      Forall (fun t => t = []) ts -> interleave ts []
  | interleave_step ts i x t tr :
      ts !! i = Some (x :: t) ->
      interleave (<[i := t]> ts) tr ->
      interleave ts (x :: tr).

(** How a cycle ends: [Gather] returns, or the process dies of a panic that
    no goroutine recovers. *)
Inductive outcome : Type :=
  | Returned (err : option error)
  | Crashed.

(** [Gather]: initialization, then every goroutine, then [wg.Wait()] and
    [return nil]. The plugin after the cycle, the events, the outcome. *)
Inductive Gather (w : World) (s : SQLServer)
    : SQLServer -> list (nat * event) -> outcome -> Prop :=
  | Gather_returns tr :
      Forall (fun g : M unit => g.2 = Done tt) (goroutines w (initialize w s)) ->
      interleave (taggedTraces (goroutines w (initialize w s))) tr ->
      Gather w s (initialize w s) tr (Returned None)
  | Gather_crashes tr tr' :
      Exists (fun g : M unit => g.2 = Panicked) (goroutines w (initialize w s)) ->
      interleave (taggedTraces (goroutines w (initialize w s))) tr' ->
      tr `prefix_of` tr' ->
      Gather w s (initialize w s) tr Crashed.

(** One schedule, to run examples: the goroutines one after the other, up to
    the first that panics. *)
Fixpoint runInOrder (i : nat) (gs : list (M unit)) : list (nat * event) * outcome :=
  match gs with
  | [] => ([], Returned None)
  | g :: rest =>
    match g.2 with
    | Done _ => let r := runInOrder (S i) rest in (tagged i g.1 ++ r.1, r.2)
    | Panicked => (tagged i g.1, Crashed)
    end
  end.

Definition GatherInOrder (w : World) (s : SQLServer)
    : SQLServer * list (nat * event) * outcome :=
  let s' := initialize w s in
  let r := runInOrder 0 (goroutines w s') in
  (s', r.1, r.2).

(** What the accumulator holds after a run. *)
Definition collectedErrors (tr : list (nat * event)) : list error :=
  omap (fun x => match x.2 with AddError err => Some err | _ => None end) tr.

Definition collectedMetrics (tr : list (nat * event)) : list Metric :=
  omap (fun x => match x.2 with AddFields m => Some m | _ => None end) tr.

Definition metricsOf (t : list event) : list Metric :=
  omap (fun e => match e with AddFields m => Some m | _ => None end) t.

Definition errorsOf (t : list event) : list error :=
  omap (fun e => match e with AddError err => Some err | _ => None end) t.

(** The events of goroutine [i] within a run. *)
Definition eventsOf (i : nat) (tr : list (nat * event)) : list event :=
  omap (fun x => if decide (x.1 = i) then Some x.2 else None) tr.

(** ** Notions the statements use *)

(** A value read as text, where it is text. *)
Definition asText (v : value) : option string :=
  match v with
  | VString str => Some str
  | _ => None
  end.

(** What the loop of [accRow] has reached on a column map [m]: a panic
    when some measurement or tag column holds no text, and otherwise the
    measurement, tags and fields column by column. *)
Definition classifiedAs (s : SQLServer) (cells : list value)
    (m : gmap string nat) (r : result decoded) : Prop :=
  match r with
  | Panicked =>
      exists h p, m !! h = Some p /\ (h = "measurement" \/ h ∈ tags s) /\
                  asText (cellAt cells p) = None
  | Done d =>
      (forall h p, m !! h = Some p -> h = "measurement" \/ h ∈ tags s ->
                   is_Some (asText (cellAt cells p))) /\
      d_measurement d
        = default "" (m !! "measurement" ≫= fun p => asText (cellAt cells p)) /\
      (forall h, d_tags d !! h =
         if decide (h <> "measurement" /\ h ∈ tags s)
         then m !! h ≫= fun p => asText (cellAt cells p) else None) /\
      (forall h, d_fields d !! h =
         if decide (h <> "measurement" /\ h ∉ tags s)
         then cellAt cells <$> m !! h else None)
  end.

(** The servers a unit has opened a connection to, and those it has
    released one of, in the order of the events. *)
Definition opens (t : list event) : list string :=
  omap (fun e => match e with ConnOpen server => Some server | _ => None end) t.

Definition releases (t : list event) : list string :=
  omap (fun e => match e with ConnClose server => Some server | _ => None end) t.

(** The error a unit returns, when it returns one. *)
Definition unitError (w : World) (s : SQLServer)
    (u : string * (string * Query)) : option error :=
  match (gatherServer w s u.1 u.2.2).2 with
  | Done (Some e) => Some e
  | _ => None
  end.

(** ** Concrete inputs *)

(** A version-2 configuration that names one query to include and another
    to exclude. *)
Definition includeCpuExcludeSchedulers : SQLServer :=
  configure ["Server=db1;"] 2 false ["Cpu"] ["Schedulers"] false [].

(** The scenario of the specification: a row [measurement = "m"],
    [host = "h1"], [value = 42], with [host] configured as a tag key. *)
Definition hostTagged : SQLServer :=
  initQueries (configure ["Server=db1;"] 2 false [] [] false ["host"]).

Definition scenarioQuery : Query :=
  mkQuery sqlServerCpuV2 ["measurement"; "host"; "value"].

Definition scenarioRow : Row :=
  mkRow (inr [VString "m"; VString "h1"; VInt 42]) 1600000000.

Definition scenarioMetric : Metric :=
  mkMetric "m" {["value" := VInt 42]} {["host" := "h1"]} 1600000000.

(** A result shape without a [measurement] column, and a row of it. *)
Definition unnamedQuery : Query := mkQuery sqlServerCpuV2 ["host"; "value"].

Definition unnamedRow : Row := mkRow (inr [VString "h1"; VInt 42]) 1600000000.

Definition unnamedMetric : Metric :=
  mkMetric "" {["value" := VInt 42]} {["host" := "h1"]} 1600000000.

(** A row whose scan fails. *)
Definition brokenRow : Row := mkRow (inl "sql: Scan error on column index 1") 1600000001.

(** A row of the scenario's shape whose tag column holds a number. *)
Definition numericHostRow : Row :=
  mkRow (inr [VString "m"; VInt 7; VInt 42]) 1600000002.

(** A server that answers every query with the scenario's shape and two
    rows: the scenario's row, then a row whose [host] is a number. *)
Definition numericHostRows : Rows :=
  mkRows (inr ["measurement"; "host"; "value"]) [scenarioRow; numericHostRow] None.

Definition numericHostWorld : World :=
  mkWorld (fun _ => None) (fun _ _ => inr numericHostRows)
          (inl "no registry") (inl "no hostname") id.

(** The same shape, with a row whose scan fails after the scenario's row. *)
Definition brokenRows : Rows :=
  mkRows (inr ["measurement"; "host"; "value"]) [scenarioRow; brokenRow; scenarioRow] None.

Definition brokenRowWorld : World :=
  mkWorld (fun _ => None) (fun _ _ => inr brokenRows)
          (inl "no registry") (inl "no hostname") id.

(** One server, the [Cpu] query alone, [host] as a tag key. *)
Definition cpuOnly : SQLServer :=
  configure ["Server=db1;"] 2 false ["Cpu"] [] false ["host"].

(** Two servers that both refuse the connection with the same error. *)
Definition loginFails : World :=
  mkWorld (fun _ => Some "login failed") (fun _ _ => inl "unreachable")
          (inl "no registry") (inl "no hostname") id.

Definition twoServers : SQLServer :=
  configure ["Server=a;"; "Server=b;"] 2 false ["Cpu"] [] false ["host"].

(** ** Further notions and inputs *)

(** [accRow] with the order in which [range columnMap] hands out the
    entries made explicit: [order] is visited from its last entry to its
    first. *)
Definition accRowVisiting (order : list (string * nat)) (s : SQLServer)
    (query : Query) (row : Row) : M (option error) :=
  let '(columnMap, ncells) := columnCells (OrderedColumns query) in
  match Scan row ncells with
  | inl err => ret (Some err)
  | inr cells =>
    d <- lift (foldr (uncurry (classifyColumn s cells))
                     (Done (mkDecoded "" ∅ ∅)) order) ;;
    emit (AddFields (mkMetric (d_measurement d) (d_fields d) (d_tags d) (now row))) ;;;
    ret None
  end.

(** The connection string [includeConnStringsForLocalInstances] formats for
    one instance. *)
Definition localConnString (w : World) (hostname instance : string) : string :=
  if decide (strings_ToUpper w instance = "MSSQLSERVER")
  then "Server=" +:+ hostname +:+ ";Integrated Security=SSPI;"
  else "Server=" +:+ hostname +:+ "\" +:+ instance +:+ ";Integrated Security=SSPI;".

(** The records a unit reports. *)
Definition unitMetrics (w : World) (s : SQLServer)
    (u : string * (string * Query)) : list Metric :=
  metricsOf (gatherServer w s u.1 u.2.2).1.

(** A result shape that names [value] twice. *)
Definition repeatedQuery : Query :=
  mkQuery sqlServerCpuV2 ["measurement"; "value"; "host"; "value"].

Definition repeatedRow : Row :=
  mkRow (inr [VString "m"; VInt 1; VString "h1"; VInt 2]) 1600000003.

(** A row of the scenario's shape whose tag column is NULL. *)
Definition nullHostRow : Row :=
  mkRow (inr [VString "m"; VNil; VInt 42]) 1600000004.

(** An include-list that names no query of any catalog. *)
Definition unknownInclude : SQLServer :=
  configure ["Server=db1;"; "Server=db2;"] 2 true ["NoSuchQuery"] [] false ["host"].

(** A host with a default and a named instance; the server answers every
    query with the scenario's row. *)
Definition scenarioRows : Rows :=
  mkRows (inr ["measurement"; "host"; "value"]) [scenarioRow] None.

Definition twoLocalInstances : World :=
  mkWorld (fun _ => None) (fun _ _ => inr scenarioRows)
          (inr ["MSSQLSERVER"; "REPORTING"]) (inr "db-host") id.

Definition discovering : SQLServer :=
  configure ["Server=db1;"] 2 false ["Cpu"] [] true ["host"].

(** A server whose cursor reports an error once its rows are read. *)
Definition interruptedRows : Rows :=
  mkRows (inr ["measurement"; "host"; "value"]) [scenarioRow; scenarioRow]
         (Some "read tcp: connection reset").

Definition interruptedWorld : World :=
  mkWorld (fun _ => None) (fun _ _ => inr interruptedRows)
          (inl "no registry") (inl "no hostname") id.

(** Two servers behind a connection that opens lazily: the first refuses
    every query, the second answers with the scenario's row. *)
Definition oneRefuses : World :=
  mkWorld (fun _ => None)
          (fun server _ =>
             if decide (server = "Server=a;") then inl "login failed"
             else inr scenarioRows)
          (inl "no registry") (inl "no hostname") id.

(** Servers that all refuse, when the query is sent. *)
Definition allRefuse : World :=
  mkWorld (fun _ => None) (fun _ _ => inl "login failed")
          (inl "no registry") (inl "no hostname") id.

(** ** The win_services input plugin

    A shallow embedding of the second source file, package [win_services].
    The service manager, the glob compiler [filter.Compile], the test
    [os.IsPermission] and the width of [int] belong to the host. *)

Module win_services.

(** [type ServiceErr struct] *)
Record ServiceErr : Type := mkServiceErr {
  Message : string;
  Service : string;
  Err : error
}.

(** [func (e *ServiceErr) Error() string], the format [%s: '%s': %v]. *)
Definition ServiceErr_Error (e : ServiceErr) : string :=
  Message e +:+ ": '" +:+ Service e +:+ "': " +:+ Err e.

(** An [error] value: a [*ServiceErr], or any other error. *)
Inductive goError : Type :=
  | OtherError (msg : error)
  | ServiceError (e : ServiceErr).

(** The fields of [mgr.Config] and [svc.Status] that the plugin reads; both
    numbers are [uint32]. *)
Record Config : Type := mkConfig {
  cfg_DisplayName : string;
  cfg_StartType : Z
}.

(** [type WinService interface], by what its methods answer. *)
Record WinService : Type := mkWinService {
  srv_Config : error + Config;
  srv_Query : error + Z
}.

(** [type WinServiceManager interface] *)
Record WinServiceManager : Type := mkManager {
  ListServices : error + list string;
  OpenService : string -> error + WinService
}.

(** The host: [mgrProvider.Connect], [filter.Compile] (a filter, which may
    be [nil], and an error), [os.IsPermission], and the bits of an [int]. *)
Record Host : Type := mkHost {
  Connect : error + WinServiceManager;
  filter_Compile : list string -> option (string -> bool) * option error;
  os_IsPermission : error -> bool;
  intSize : Z
}.

(** [type ServiceInfo struct] *)
Record ServiceInfo : Type := mkServiceInfo {
  ServiceName : string;
  DisplayName : string;
  State : Z;
  StartUpMode : Z
}.

(** [type WinServices struct]: the configured names and the compiled
    filter, [None] for [nil]. *)
Record WinServices : Type := mkWinServices {
  ServiceNames : list string;
  filter : option (string -> bool)
}.

(** What a cycle does to the outside. *)
Inductive event : Type :=
  | Connected
  | Disconnect
  | Opened (service : string)
  | Close (service : string)
  | LogDebug (msg : string)
  | LogError (msg : string)
  | AddFields (measurement : string) (fields : gmap string Z)
              (tags : gmap string string).

(** [int(x)] for a [uint32] [x]: the low bits, read as a signed number. *)
Definition toInt (h : Host) (x : Z) : Z :=
  let m := x mod 2 ^ intSize h in
  if m <? 2 ^ (intSize h - 1) then m else m - 2 ^ intSize h.

(** [func IsPermission(err error) bool] *)
Definition IsPermission (h : Host) (err : goError) : bool :=
  match err with
  | ServiceError e => os_IsPermission h (Err e)
  | OtherError _ => false
  end.

(** [func (m *WinServices) initFilter() error]: the plugin afterwards, and
    the error. *)
Definition initFilter (h : Host) (m : WinServices) : WinServices * option error :=
  let names :=
    if decide (length (ServiceNames m) = 0%nat)
    then ServiceNames m ++ ["*"]
    else ServiceNames m in
  let r := filter_Compile h names in
  (mkWinServices names r.1, r.2).

(** The loop of [listServices]; calling [Match] on a [nil] filter panics. *)
Fixpoint keepMatching (f : option (string -> bool)) (names services : list string)
    : result (list string) :=
  match names with
  | [] => Done services
  | svc :: rest =>
    match f with
    | None => Panicked
    | Some matches =>
      keepMatching f rest (if matches svc then services ++ [svc] else services)
    end
  end.

(** [func listServices(scmgr, filter) ([]string, error)] *)
Definition listServices (scmgr : WinServiceManager) (f : option (string -> bool))
    : result (error + list string) :=
  match ListServices scmgr with
  | inl err => Done (inl ("Could not list services: " +:+ err))
  | inr names =>
    match keepMatching f names [] with
    | Done services => Done (inr services)
    | Panicked => Panicked
    end
  end.

(** [func collectServiceInfo(scmgr, serviceName)]: the service's info or
    an error; [defer srv.Close()] once the service is open. *)
Definition collectServiceInfo (h : Host) (scmgr : WinServiceManager)
    (serviceName : string) : list event * (ServiceErr + ServiceInfo) :=
  match OpenService scmgr serviceName with
  | inl err => ([], inl (mkServiceErr "could not open service" serviceName err))
  | inr srv =>
    ([Opened serviceName; Close serviceName],
     match srv_Query srv with
     | inl err => inl (mkServiceErr "could not query service" serviceName err)
     | inr state =>
       match srv_Config srv with
       | inl err => inl (mkServiceErr "could not get config of service" serviceName err)
       | inr srvCfg =>
         inr (mkServiceInfo serviceName (cfg_DisplayName srvCfg)
                            (toInt h state) (toInt h (cfg_StartType srvCfg)))
       end
     end)
  end.

(** The tags and fields [Gather] builds for a service. *)
Definition tagsOf (service : ServiceInfo) : gmap string string :=
  let tags : gmap string string := {["service_name" := ServiceName service]} in
  if bool_decide (0 < String.length (DisplayName service))%nat
  then <["display_name" := DisplayName service]> tags
  else tags.

Definition fieldsOf (service : ServiceInfo) : gmap string Z :=
  <["startup_mode" := StartUpMode service]> {["state" := State service]}.

(** One pass of the loop of [Gather] over the names to gather. *)
Definition gatherService (h : Host) (scmgr : WinServiceManager)
    (srvName : string) : list event :=
  let r := collectServiceInfo h scmgr srvName in
  match r.2 with
  | inl e =>
    r.1 ++ [if IsPermission h (ServiceError e)
            then LogDebug (ServiceErr_Error e)
            else LogError (ServiceErr_Error e)]
  | inr service =>
    r.1 ++ [AddFields "win_services" (fieldsOf service) (tagsOf service)]
  end.

(** [func (m *WinServices) Gather(acc) error]: the plugin afterwards, the
    events, and the error returned, unless the cycle panics. *)
Definition Gather (h : Host) (m : WinServices)
    : WinServices * list event * result (option error) :=
  let init := match filter m with
              | None => initFilter h m
              | Some _ => (m, None)
              end in
  match init.2 with
  | Some err => (init.1, [], Done (Some err))
  | None =>
    match Connect h with
    | inl err => (init.1, [], Done (Some ("Could not open service manager: " +:+ err)))
    | inr scmgr =>
      let body : list event * result (option error) :=
        match listServices scmgr (filter init.1) with
        | Panicked => ([], Panicked)
        | Done (inl err) => ([], Done (Some err))
        | Done (inr serviceNames) =>
            (flat_map (gatherService h scmgr) serviceNames, Done None)
        end in
      (init.1, Connected :: body.1 ++ [Disconnect], body.2)
    end
  end.

(** The records in a trace, and how often it connects and disconnects. *)
Definition records (t : list event)
    : list (string * gmap string Z * gmap string string) :=
  omap (fun e => match e with
                 | AddFields name fields tags => Some (name, fields, tags)
                 | _ => None
                 end) t.

Definition logged (t : list event) : list string :=
  omap (fun e => match e with
                 | LogDebug msg | LogError msg => Some msg
                 | _ => None
                 end) t.

(** The services a trace opens and closes, in order. *)
Definition opened (t : list event) : list string :=
  omap (fun e => match e with Opened name => Some name | _ => None end) t.

Definition closed (t : list event) : list string :=
  omap (fun e => match e with Close name => Some name | _ => None end) t.

(** The names [initFilter] compiles. *)
Definition compiledNames (m : WinServices) : list string :=
  if decide (length (ServiceNames m) = 0%nat)
  then ServiceNames m ++ ["*"]
  else ServiceNames m.

Definition disconnects (t : list event) : nat :=
  length (omap (fun e => match e with Disconnect => Some tt | _ => None end) t).

Definition connects (t : list event) : nat :=
  length (omap (fun e => match e with Connected => Some tt | _ => None end) t).

(** What the loop of [Gather] reports for a service, when it does. *)
Definition recordOf (h : Host) (scmgr : WinServiceManager) (srvName : string)
    : option (string * gmap string Z * gmap string string) :=
  match (collectServiceInfo h scmgr srvName).2 with
  | inr service => Some ("win_services", fieldsOf service, tagsOf service)
  | inl _ => None
  end.

(** What it logs for a service, when it does. *)
Definition logOf (h : Host) (scmgr : WinServiceManager) (srvName : string)
    : option string :=
  match (collectServiceInfo h scmgr srvName).2 with
  | inr _ => None
  | inl e => Some (ServiceErr_Error e)
  end.

(** A host with three services: one runs, one cannot be opened for lack of
    permission, one has no display name. The filter keeps all names but
    [Skipped]. *)
Definition runningService : WinService :=
  mkWinService (inr (mkConfig "Server" 2)) (inr 4).

Definition silentService : WinService :=
  mkWinService (inr (mkConfig "" 3)) (inr 1).

Definition threeServices : WinServiceManager :=
  mkManager (inr ["LanmanServer"; "Locked"; "Skipped"; "Silent"])
            (fun name =>
               if decide (name = "LanmanServer") then inr runningService
               else if decide (name = "Silent") then inr silentService
               else inl "Access is denied.").

Definition exampleHost : Host :=
  mkHost (inr threeServices)
         (fun names => (Some (fun name => negb (bool_decide (name = "Skipped"))), None))
         (fun err => bool_decide (err = "Access is denied."))
         64.

(** A host whose service list cannot be read. *)
Definition unlistableHost : Host :=
  mkHost (inr (mkManager (inl "RPC server unavailable") (fun _ => inl "no such service")))
         (fun names => (Some (fun _ => true), None))
         (fun _ => false)
         64.

Definition unconfigured : WinServices := mkWinServices [] None.

End win_services.

(** * Properties *)

(** ** Query selection *)

Section Selection.

Implicit Types (s : SQLServer) (name : string) (l : list string).

Lemma nameSet_acc l : forall (acc : gset string) name,
  name ∈ foldl (fun m query => {[query]} ∪ m) acc l <-> name ∈ acc \/ name ∈ l.
Proof.
  induction l as [|q l IH]; intros acc name; simpl.
  - rewrite elem_of_nil. tauto.
  - rewrite IH, elem_of_union, elem_of_singleton, elem_of_cons. tauto.
Qed.

Lemma elem_of_nameSet l name : name ∈ nameSet l <-> name ∈ l.
Proof.
  unfold nameSet. rewrite nameSet_acc. split; [intros [H|H] | auto]; [|done].
  by apply not_elem_of_empty in H.
Qed.

(** [len(m) > 0] is "the configured list is not empty". *)
Lemma nameSet_nonempty l : (0 < size (nameSet l))%nat <-> l <> [].
Proof.
  split.
  - intros Hsz ->. vm_compute in Hsz. lia.
  - destruct l as [|q l]; [done|]. intros _.
    assert (Hne : size (nameSet (q :: l)) <> 0%nat).
    { apply size_non_empty_iff. intros Hemp.
      apply (not_elem_of_empty (C:=gset string) q). rewrite <- Hemp.
      apply elem_of_nameSet. left. }
    lia.
Qed.

(** What the closure answers once the three lookup sets are built. *)
Lemma queryFilter_initQueries s name :
  queryFilter (initQueries s) name =
    if bool_decide (ExcludeQuery s <> []) then negb (bool_decide (name ∈ ExcludeQuery s))
    else if bool_decide (IncludeQuery s <> []) then bool_decide (name ∈ IncludeQuery s)
    else true.
Proof.
  unfold queryFilter, initQueries; simpl.
  rewrite (bool_decide_ext _ _ (nameSet_nonempty (ExcludeQuery s))).
  rewrite (bool_decide_ext _ _ (nameSet_nonempty (IncludeQuery s))).
  rewrite (bool_decide_ext _ _ (elem_of_nameSet (ExcludeQuery s) name)).
  rewrite (bool_decide_ext _ _ (elem_of_nameSet (IncludeQuery s) name)).
  reflexivity.
Qed.

(** The tag keys the decoder looks up are the configured ones. *)
Lemma elem_of_tags_initQueries s name :
  name ∈ tags (initQueries s) <-> name ∈ TagKeys s.
Proof. unfold initQueries. simpl. apply elem_of_nameSet. Qed.

(** The closure reads the lookup sets only. *)
Lemma queryFilter_ext s1 s2 name :
  includeQueries s1 = includeQueries s2 ->
  excludeQueries s1 = excludeQueries s2 ->
  queryFilter s1 name = queryFilter s2 name.
Proof. unfold queryFilter. by intros -> ->. Qed.

(** A run of guarded assignments: the last entry for a name wins, and a
    name the closure refuses keeps what the map had. *)
Lemma addQueries_lookup s (entries : list (string * Script)) :
  forall (qs : gmap string Query) name,
    addQueries s entries qs !! name =
      if queryFilter s name then
        match (list_to_map (reverse entries) : gmap string Script) !! name with
        | Some sc => Some (mkQuery sc [])
        | None => qs !! name
        end
      else qs !! name.
Proof.
  unfold addQueries.
  induction entries as [|[n sc] es IH]; intros qs name; simpl.
  - rewrite lookup_empty. by destruct (queryFilter s name).
  - rewrite IH. rewrite reverse_cons, list_to_map_app, lookup_union.
    simpl. unfold addQuery; simpl.
    destruct (queryFilter s name) eqn:Hf.
    + destruct (list_to_map (reverse es) !! name) as [sc'|] eqn:Hl; simpl.
      * by rewrite union_Some_l.
      * rewrite (left_id None _).
        destruct (decide (n = name)) as [->|Hne].
        -- rewrite lookup_insert_eq, Hf. by rewrite lookup_insert_eq.
        -- rewrite lookup_insert_ne, lookup_empty by done.
           destruct (queryFilter s n); [by rewrite lookup_insert_ne|done].
    + destruct (queryFilter s n) eqn:Hn; [|done].
      rewrite lookup_insert_ne; [done|]. intros ->. congruence.
Qed.

Lemma catalog_NoDup azure version : NoDup (catalog azure version).*1.
Proof.
  unfold catalog.
  destruct azure, (version =? 2)%Z; simpl; apply (bool_decide_unpack _); vm_compute; exact I.
Qed.

Lemma catalog_lookup (cat : list (string * Script)) name sc :
  NoDup cat.*1 ->
  (list_to_map (reverse cat) : gmap string Script) !! name = Some sc <-> (name, sc) ∈ cat.
Proof.
  intros Hnd.
  rewrite (list_to_map_proper (reverse cat) cat).
  - symmetry. by apply elem_of_list_to_map.
  - by rewrite fmap_reverse, reverse_Permutation.
  - apply reverse_Permutation.
Qed.

(** The two or three runs of [initQueries] are one run over the catalog. *)
Lemma initQueries_queries s :
  queries (initQueries s) =
    addQueries (initTags (initExcludeQueries (initIncludeQueries s)))
               (catalog (AzureDB s) (QueryVersion s)) ∅.
Proof.
  unfold initQueries, catalog, addQueries; cbv zeta.
  change (queries (withQueries ?a ?qs)) with qs.
  change (AzureDB (initTags (initExcludeQueries (initIncludeQueries s))))
    with (AzureDB s).
  change (QueryVersion (initTags (initExcludeQueries (initIncludeQueries s))))
    with (QueryVersion s).
  destruct (AzureDB s), (QueryVersion s =? 2)%Z;
    rewrite ?foldl_app; reflexivity.
Qed.

(** [initQueries] entry by entry: a name is bound exactly when the
    closure accepts it and the catalog has it, to the catalog's text. *)
Lemma initQueries_lookup s name q :
  queries (initQueries s) !! name = Some q <->
    queryFilter (initQueries s) name = true /\
    (name, Script_of q) ∈ catalog (AzureDB s) (QueryVersion s) /\
    OrderedColumns q = [].
Proof.
  set (s3 := initTags (initExcludeQueries (initIncludeQueries s))).
  assert (Hf : queryFilter (initQueries s) name = queryFilter s3 name)
    by (by apply queryFilter_ext).
  assert (Hq : queries (initQueries s) !! name =
               if queryFilter s3 name then
                 (fun sc => mkQuery sc []) <$>
                   (list_to_map (reverse (catalog (AzureDB s) (QueryVersion s)))
                      : gmap string Script) !! name
               else None).
  { rewrite initQueries_queries. fold s3. rewrite addQueries_lookup, lookup_empty.
    destruct (queryFilter s3 name); [|done].
    by destruct (list_to_map _ !! name). }
  rewrite Hq, Hf. pose proof (catalog_NoDup (AzureDB s) (QueryVersion s)) as Hnd.
  destruct (queryFilter s3 name).
  - rewrite fmap_Some. split.
    + intros (sc & Hl & ->). simpl. split_and!; [done| |done].
      by apply catalog_lookup.
    + intros (_ & Hin & Hcols). exists (Script_of q). split.
      * by apply catalog_lookup.
      * destruct q; simpl in *; by subst.
  - split; [done|]. by intros [? _].
Qed.

(** Without an exclude-list the include-list is a whitelist: this path
    of the closure selects (catalog ∩ I), as the specification words it. *)
Lemma include_only_is_whitelist s name :
  IncludeQuery s <> [] -> ExcludeQuery s = [] ->
  queries (initQueries s) !! name =
    selectedBySpec (catalog (AzureDB s) (QueryVersion s)) (IncludeQuery s) [] name.
Proof.
  intros HI HE. unfold selectedBySpec.
  pose proof (catalog_NoDup (AzureDB s) (QueryVersion s)) as Hnd.
  assert (HnE : bool_decide (name ∈ ([] : list string)) = false)
    by (apply bool_decide_eq_false; apply not_elem_of_nil).
  rewrite HnE, andb_true_r.
  apply option_eq; intros q. rewrite initQueries_lookup, queryFilter_initQueries, HE.
  rewrite (bool_decide_eq_false_2 ([] <> [])) by (intros H; by apply H).
  rewrite (bool_decide_eq_true_2 _ HI).
  destruct (bool_decide (name ∈ IncludeQuery s)).
  - rewrite fmap_Some. split.
    + intros (_ & Hin & Hc). exists (Script_of q).
      split; [by apply elem_of_list_to_map|]. destruct q; simpl in *; by subst.
    + intros (sc & Hl & ->). simpl. split_and!; [done| |done].
      by apply elem_of_list_to_map.
  - split; [by intros [? _]|done].
Qed.

(** C6: with an empty include-list and an empty exclude-list,
    [initQueries] selects the whole catalog and nothing else: a name is
    bound to a text exactly when the catalog (version 1 or 2, with or
    without the two AzureDB entries) pairs them. *)
Theorem initQueries_empty_lists_select_catalog s name sc :
  IncludeQuery s = [] -> ExcludeQuery s = [] ->
  (name, sc) ∈ catalog (AzureDB s) (QueryVersion s) <->
  queries (initQueries s) !! name = Some (mkQuery sc []).
Proof.
  intros HI HE. rewrite initQueries_lookup, queryFilter_initQueries, HI, HE.
  rewrite (bool_decide_eq_false_2 ([] <> [])) by (intros H; by apply H).
  simpl. tauto.
Qed.

(** C9: once the exclude-list is not empty, membership in it decides
    alone. The closure answers "not excluded" whatever the include-list
    holds, so a catalog name is selected exactly when it is absent from the
    exclude-list, also when a non-empty include-list does not name it. *)
Theorem exclude_list_alone_decides s name :
  ExcludeQuery s <> [] ->
  queryFilter (initQueries s) name = negb (bool_decide (name ∈ ExcludeQuery s)) /\
  forall sc,
    queries (initQueries s) !! name = Some (mkQuery sc []) <->
    (name, sc) ∈ catalog (AzureDB s) (QueryVersion s) /\ name ∉ ExcludeQuery s.
Proof.
  intros HE.
  assert (Hf : queryFilter (initQueries s) name
               = negb (bool_decide (name ∈ ExcludeQuery s))).
  { rewrite queryFilter_initQueries. by rewrite (bool_decide_eq_true_2 _ HE). }
  split; [done|]. intros sc. rewrite initQueries_lookup, Hf. simpl.
  rewrite negb_true_iff, bool_decide_eq_false. tauto.
Qed.

(** C10: the switch is [QueryVersion == 2]. Every other value, zero,
    one, negative or above two, draws from the version-1 table; the value
    two, and no other, draws from the version-2 table. *)
Theorem only_version_2_selects_catalogV2 s name q :
  (QueryVersion s <> 2 ->
     queries (initQueries s) !! name = Some q <->
       queryFilter (initQueries s) name = true /\
       (name, Script_of q) ∈ (if AzureDB s then azureCatalog else []) ++ catalogV1 /\
       OrderedColumns q = []) /\
  (QueryVersion s = 2 ->
     queries (initQueries s) !! name = Some q <->
       queryFilter (initQueries s) name = true /\
       (name, Script_of q) ∈ (if AzureDB s then azureCatalog else []) ++ catalogV2 /\
       OrderedColumns q = []).
Proof.
  split; intros Hv; rewrite initQueries_lookup; unfold catalog.
  - by rewrite (proj2 (Z.eqb_neq _ _) Hv).
  - by rewrite (proj2 (Z.eqb_eq _ _) Hv).
Qed.

(** Any version but two builds what version one builds. *)
Lemma version_not_2_is_version_1 servers v azure include exclude discover tagKeys :
  v <> 2 ->
  queries (initQueries (configure servers v azure include exclude discover tagKeys)) =
  queries (initQueries (configure servers 1 azure include exclude discover tagKeys)).
Proof.
  intros Hv. rewrite !initQueries_queries. simpl AzureDB. simpl QueryVersion.
  unfold catalog. rewrite (proj2 (Z.eqb_neq _ _) Hv). reflexivity.
Qed.

End Selection.

(** C1 fails on this configuration. "DatabaseIO" is in the catalog, is not
    in the include-list and is not in the exclude-list: (catalog ∩ I) − E
    leaves it out, [initQueries] selects it. The second test of the closure
    assigns [shouldInclude] anew and drops the answer of the first. *)
Theorem include_list_dropped_when_exclude_list_set :
  ("DatabaseIO" ∉ IncludeQuery includeCpuExcludeSchedulers) /\
  ("DatabaseIO" ∉ ExcludeQuery includeCpuExcludeSchedulers) /\
  selectedBySpec (catalog false 2) ["Cpu"] ["Schedulers"] "DatabaseIO" = None /\
  queries (initQueries includeCpuExcludeSchedulers) !! "DatabaseIO"
    = Some (mkQuery sqlDatabaseIOV2 []) /\
  size (queries (initQueries includeCpuExcludeSchedulers)) = 23%nat.
Proof.
  split_and!; try (apply (bool_decide_unpack _)); vm_compute; try exact I; reflexivity.
Qed.

Lemma initQueries_empty_lists_select_catalog_witness :
  queries (initQueries (configure ["Server=db1;"] 2 true [] [] false []))
    !! "AzureDBResourceStats" = Some (mkQuery sqlAzureDBResourceStats []).
Proof.
  apply (proj1 (initQueries_empty_lists_select_catalog
                  (configure ["Server=db1;"] 2 true [] [] false [])
                  "AzureDBResourceStats" sqlAzureDBResourceStats eq_refl eq_refl)).
  apply (bool_decide_unpack _). vm_compute. exact I.
Defined.

Lemma exclude_list_alone_decides_witness :
  queryFilter (initQueries includeCpuExcludeSchedulers) "DatabaseIO" = true /\
  queryFilter (initQueries includeCpuExcludeSchedulers) "Schedulers" = false.
Proof.
  split.
  - apply (proj1 (exclude_list_alone_decides includeCpuExcludeSchedulers "DatabaseIO"
                    ltac:(discriminate))).
  - apply (proj1 (exclude_list_alone_decides includeCpuExcludeSchedulers "Schedulers"
                    ltac:(discriminate))).
Defined.

Lemma only_version_2_selects_catalogV2_witness :
  queries (initQueries (configure [] (-1) false [] [] false [])) !! "CPUHistory"
    = Some (mkQuery sqlCPUHistory []) /\
  queries (initQueries (configure [] 3 false [] [] false [])) !! "CPUHistory"
    = Some (mkQuery sqlCPUHistory []) /\
  queries (initQueries (configure [] 2 false [] [] false [])) !! "Cpu"
    = Some (mkQuery sqlServerCpuV2 []).
Proof.
  split_and!.
  - apply (proj1 (only_version_2_selects_catalogV2
                    (configure [] (-1) false [] [] false []) "CPUHistory"
                    (mkQuery sqlCPUHistory [])) ltac:(discriminate)).
    split_and!; [reflexivity | apply (bool_decide_unpack _); vm_compute; exact I | reflexivity].
  - apply (proj1 (only_version_2_selects_catalogV2
                    (configure [] 3 false [] [] false []) "CPUHistory"
                    (mkQuery sqlCPUHistory [])) ltac:(discriminate)).
    split_and!; [reflexivity | apply (bool_decide_unpack _); vm_compute; exact I | reflexivity].
  - apply (proj2 (only_version_2_selects_catalogV2
                    (configure [] 2 false [] [] false []) "Cpu"
                    (mkQuery sqlServerCpuV2 [])) eq_refl).
    split_and!; [reflexivity | apply (bool_decide_unpack _); vm_compute; exact I | reflexivity].
Defined.

(** ** Row decoding *)

Section Decoding.

Variable s : SQLServer.
Variable cells : list value.

Lemma classifyColumn_spec (h : string) (p : nat) (m : gmap string nat)
    (r : result decoded) :
  m !! h = None ->
  classifiedAs s cells m r ->
  classifiedAs s cells (<[h := p]> m) (classifyColumn s cells h p r).
Proof.
  intros Hnone HP. destruct r as [d|]; simpl.
  - destruct HP as (Htxt & Hm & Ht & Hf).
    assert (Hother : forall h' p', <[h := p]> m !! h' = Some p' ->
              h' <> h -> m !! h' = Some p').
    { intros h' p' Hl Hne. by rewrite lookup_insert_ne in Hl. }
    destruct (decide (h = "measurement")) as [->|Hne].
    + destruct (asText (cellAt cells p)) as [str|] eqn:Hc.
      * assert (Hv : cellAt cells p = VString str)
          by (destruct (cellAt cells p); simpl in Hc; congruence).
        rewrite Hv. simpl. split_and!.
        -- intros h' p' Hl Hcls. destruct (decide (h' = "measurement")) as [->|Hne'].
           ++ rewrite lookup_insert_eq in Hl. injection Hl as <-. by rewrite Hc.
           ++ by eapply Htxt; [apply Hother|].
        -- rewrite lookup_insert_eq. simpl. by rewrite Hc.
        -- intros h'. rewrite Ht. case_decide as Hd; [|done].
           by rewrite lookup_insert_ne by (by intros <-; destruct Hd).
        -- intros h'. rewrite Hf. case_decide as Hd; [|done].
           by rewrite lookup_insert_ne by (by intros <-; destruct Hd).
      * assert (Hv : assertString (cellAt cells p) = Panicked)
          by (destruct (cellAt cells p); simpl in Hc; congruence || done).
        rewrite Hv. exists "measurement", p. rewrite lookup_insert_eq. auto.
    + unfold isTag. case_bool_decide as Htag.
      * destruct (asText (cellAt cells p)) as [str|] eqn:Hc.
        -- assert (Hv : cellAt cells p = VString str)
             by (destruct (cellAt cells p); simpl in Hc; congruence).
           rewrite Hv. simpl. split_and!.
           ++ intros h' p' Hl Hcls. destruct (decide (h' = h)) as [->|Hne'].
              ** rewrite lookup_insert_eq in Hl. injection Hl as <-. by rewrite Hc.
              ** by eapply Htxt; [apply Hother|].
           ++ by rewrite lookup_insert_ne.
           ++ intros h'. destruct (decide (h' = h)) as [->|Hne'].
              ** rewrite !lookup_insert_eq. rewrite decide_True by done.
                 simpl. by rewrite Hc.
              ** rewrite !lookup_insert_ne by done. apply Ht.
           ++ intros h'. rewrite Hf. case_decide as Hd; [|done].
              by rewrite lookup_insert_ne by (by intros <-; destruct Hd).
        -- assert (Hv : assertString (cellAt cells p) = Panicked)
             by (destruct (cellAt cells p); simpl in Hc; congruence || done).
           rewrite Hv. exists h, p. rewrite lookup_insert_eq. auto.
      * simpl. split_and!.
        -- intros h' p' Hl Hcls. destruct (decide (h' = h)) as [->|Hne'].
           ++ by destruct Hcls.
           ++ by eapply Htxt; [apply Hother|].
        -- by rewrite lookup_insert_ne.
        -- intros h'. rewrite Ht. case_decide as Hd; [|done].
           by rewrite lookup_insert_ne by (by intros <-; destruct Hd).
        -- intros h'. destruct (decide (h' = h)) as [->|Hne'].
           ++ rewrite !lookup_insert_eq. by rewrite decide_True.
           ++ rewrite !lookup_insert_ne by done. apply Hf.
  - destruct HP as (h' & p' & Hl & Hcls & Hbad). exists h', p'.
    split_and!; [|done..]. rewrite lookup_insert_ne; [done|]. intros <-. congruence.
Qed.

(** The whole loop over the column map. *)
Lemma classify_spec (m : gmap string nat) :
  classifiedAs s cells m (classify s cells m).
Proof.
  unfold classify.
  apply (map_fold_weak_ind (fun r m => classifiedAs s cells m r)).
  - simpl. split_and!.
    + intros h p. by rewrite lookup_empty.
    + by rewrite lookup_empty.
    + intros h. rewrite !lookup_empty. by case_decide.
    + intros h. rewrite !lookup_empty. by case_decide.
  - intros h p m' r Hnone HP. by apply classifyColumn_spec.
Qed.

(** Two passes of the loop body for different headers commute. *)
Lemma classifyColumn_commute h1 p1 h2 p2 (r : result decoded) :
  h1 <> h2 ->
  classifyColumn s cells h1 p1 (classifyColumn s cells h2 p2 r)
  = classifyColumn s cells h2 p2 (classifyColumn s cells h1 p1 r).
Proof.
  intros Hne. destruct r as [d|]; [|done]. simpl.
  destruct (decide (h1 = "measurement")) as [E1|E1],
           (decide (h2 = "measurement")) as [E2|E2]; [congruence|..];
    destruct (isTag s h1) eqn:T1, (isTag s h2) eqn:T2;
    destruct (assertString (cellAt cells p1)) eqn:A1,
             (assertString (cellAt cells p2)) eqn:A2;
    repeat first [ rewrite decide_True by done | rewrite decide_False by done
                 | rewrite T1 | rewrite T2 | rewrite A1 | rewrite A2
                 | progress simpl ];
    try done; by rewrite insert_insert_ne.
Qed.

(** Go visits the entries of [columnMap] in an order of its choosing:
    every order gives the result of [classify]. *)
Lemma classify_any_order (m : gmap string nat) (l : list (string * nat)) :
  l ≡ₚ map_to_list m ->
  foldr (uncurry (classifyColumn s cells)) (Done (mkDecoded "" ∅ ∅)) l
  = classify s cells m.
Proof.
  intros Hl. unfold classify. rewrite map_fold_foldr.
  apply (foldr_permutation eq _ _ l (map_to_list m)); [|done].
  intros j1 [h1 p1] j2 [h2 p2] b Hj H1 H2. simpl.
  apply classifyColumn_commute. intros <-.
  assert (Hnd : NoDup l.*1) by (rewrite Hl; apply NoDup_fst_map_to_list).
  apply Hj. eapply NoDup_lookup; [exact Hnd| |];
    rewrite list_lookup_fmap; [by rewrite H1|by rewrite H2].
Qed.

End Decoding.

Section ColumnMap.

Implicit Types (columns : list string) (h : string) (p : nat).

Lemma columnCells_snoc columns h :
  columnCells (columns ++ [h]) =
    (<[h := (columnCells columns).2]> (columnCells columns).1,
     S (columnCells columns).2).
Proof. unfold columnCells. by rewrite foldl_app. Qed.

(** [columnVars] has one cell per column. *)
Lemma columnCells_length columns : (columnCells columns).2 = length columns.
Proof.
  induction columns as [|h columns IH] using rev_ind; [done|].
  rewrite columnCells_snoc, length_app. simpl. lia.
Qed.

(** A name leads to the cell of its last column. *)
Lemma columnCells_lookup columns h p :
  (columnCells columns).1 !! h = Some p <->
  columns !! p = Some h /\ forall p', (p < p')%nat -> columns !! p' <> Some h.
Proof.
  revert p. induction columns as [|c columns IH] using rev_ind; intros p.
  - simpl. rewrite lookup_empty, lookup_nil. split; [done|by intros [? _]].
  - rewrite columnCells_snoc. simpl. rewrite columnCells_length.
    destruct (decide (c = h)) as [->|Hne].
    + rewrite lookup_insert_eq. split.
      * intros [= <-]. split.
        -- by rewrite lookup_app_r, Nat.sub_diag.
        -- intros p' Hp'. rewrite lookup_ge_None_2; [done|].
           rewrite length_app; simpl; lia.
      * intros [Hl Hlast]. f_equal.
        destruct (decide (p = length columns)) as [|Hp]; [done|]. exfalso.
        apply lookup_snoc_Some in Hl as [[Hlt _]|[? _]]; [|done].
        apply (Hlast (length columns) Hlt).
        by rewrite lookup_app_r, Nat.sub_diag.
    + rewrite lookup_insert_ne by done. rewrite IH. split.
      * intros [Hl Hlast]. split; [by apply lookup_app_l_Some|].
        intros p' Hp' Hl'.
        apply lookup_snoc_Some in Hl' as [[_ Hl']|[_ ?]]; [by eapply Hlast|done].
      * intros [Hl Hlast].
        apply lookup_snoc_Some in Hl as [[_ Hl]|[_ ?]]; [|done].
        split; [done|]. intros p' Hp' Hl'. apply (Hlast p' Hp').
        by apply lookup_app_l_Some.
Qed.

Lemma columnCells_lookup_NoDup columns h p :
  NoDup columns ->
  (columnCells columns).1 !! h = Some p <-> columns !! p = Some h.
Proof.
  intros Hnd. rewrite columnCells_lookup. split; [by intros [? _]|].
  intros Hl. split; [done|]. intros p' Hp' Hl'.
  pose proof (NoDup_lookup _ _ _ _ Hnd Hl Hl'). lia.
Qed.

End ColumnMap.

Section AccRow.

Variable s : SQLServer.
Implicit Types (query : Query) (row : Row).

(** [accRow] in three cases: the scan fails, the loop panics, a record
    goes to the accumulator. *)
Lemma accRow_unfold query row :
  accRow s query row =
    match Scan row (length (OrderedColumns query)) with
    | inl err => ([], Done (Some err))
    | inr cells =>
      match classify s cells (columnCells (OrderedColumns query)).1 with
      | Done d =>
          ([AddFields (mkMetric (d_measurement d) (d_fields d) (d_tags d) (now row))],
           Done None)
      | Panicked => ([], Panicked)
      end
    end.
Proof.
  unfold accRow. rewrite <- columnCells_length.
  destruct (columnCells (OrderedColumns query)) as [cm n]. simpl.
  destruct (Scan row n); [done|].
  by destruct (classify s l cm).
Qed.

(** [accRow] emits one record when it returns [nil], and nothing when it
    returns an error or panics. *)
Lemma accRow_cases query row :
  (exists m, accRow s query row = ([AddFields m], Done None)) \/
  (exists e, accRow s query row = ([], Done (Some e))) \/
  accRow s query row = ([], Panicked).
Proof.
  rewrite accRow_unfold. destruct (Scan _ _); [eauto|].
  destruct (classify _ _ _); eauto.
Qed.

(** [accRow] returns an error exactly when the scan fails. *)
Lemma accRow_error_iff query row e tr :
  accRow s query row = (tr, Done (Some e)) <->
  Scan row (length (OrderedColumns query)) = inl e /\ tr = [].
Proof.
  rewrite accRow_unfold. destruct (Scan row _) as [e'|vals].
  - split; [by intros [= <- <-]|by intros [[= <-] ->]].
  - destruct (classify _ _ _); split; try done; by intros [? _].
Qed.

Lemma Scan_inr row n vals :
  Scan row n = inr vals <-> scanned row = inr vals /\ length vals = n.
Proof.
  unfold Scan. destruct (scanned row) as [e|vs].
  - split; [done|by intros [? _]].
  - case_decide as Hlen; split.
    + by intros [= <-].
    + by intros [[= <-] _].
    + done.
    + by intros [[= <-] ?].
Qed.

Lemma cellAt_lookup (vals : list value) p v :
  vals !! p = Some v -> cellAt vals p = v.
Proof. unfold cellAt. by intros ->. Qed.

(** The loop does not panic when the measurement and tag columns hold
    text. *)
Lemma classify_Done (columns : list string) (vals : list value) :
  (forall i h, columns !! i = Some h -> h = "measurement" \/ h ∈ tags s ->
               exists str, vals !! i = Some (VString str)) ->
  exists d, classify s vals (columnCells columns).1 = Done d.
Proof.
  intros Htxt. pose proof (classify_spec s vals (columnCells columns).1) as Hc.
  destruct (classify s vals (columnCells columns).1) as [d|]; [eauto|].
  destruct Hc as (h & p & Hl & Hcls & Hbad).
  apply columnCells_lookup in Hl as [Hl _].
  destruct (Htxt p h Hl Hcls) as [str Hv].
  by rewrite (cellAt_lookup _ _ _ Hv) in Hbad.
Qed.

(** The loop panics when a measurement or tag column that the map leads
    to holds something else than text. *)
Lemma classify_Panicked (columns : list string) (vals : list value) h p :
  (columnCells columns).1 !! h = Some p ->
  h = "measurement" \/ h ∈ tags s ->
  asText (cellAt vals p) = None ->
  classify s vals (columnCells columns).1 = Panicked.
Proof.
  intros Hl Hcls Hbad.
  pose proof (classify_spec s vals (columnCells columns).1) as Hc.
  destruct (classify s vals (columnCells columns).1) as [d|]; [|done].
  destruct Hc as (Htxt & _). destruct (Htxt h p Hl Hcls) as [str Hstr]. congruence.
Qed.

End AccRow.

(** C4: a row with a [measurement] column, whose measurement and tag
    columns hold text, gives one record. Its fields are exactly the columns
    named neither [measurement] nor by a tag key, each with the scanned
    value as it is; its tags are the tag-key columns under their names; its
    measurement is the text of the [measurement] column; its time is the
    clock's. Column names are distinct, as the data source has them. *)
Theorem accRow_builds_fields_tags_measurement
    (s : SQLServer) (query : Query) (row : Row) (vals : list value) :
  NoDup (OrderedColumns query) ->
  scanned row = inr vals ->
  length vals = length (OrderedColumns query) ->
  "measurement" ∈ OrderedColumns query ->
  (forall i h, OrderedColumns query !! i = Some h ->
               h = "measurement" \/ h ∈ tags s ->
               exists str, vals !! i = Some (VString str)) ->
  exists m,
    accRow s query row = ([AddFields m], Done None) /\
    (forall h v, fields m !! h = Some v <->
       h <> "measurement" /\ (h ∉ tags s) /\
       exists i, OrderedColumns query !! i = Some h /\ vals !! i = Some v) /\
    (forall h str, metricTags m !! h = Some str <->
       h <> "measurement" /\ h ∈ tags s /\
       exists i, OrderedColumns query !! i = Some h /\ vals !! i = Some (VString str)) /\
    (exists i, OrderedColumns query !! i = Some "measurement" /\
               vals !! i = Some (VString (measurement m))) /\
    timestamp m = now row.
Proof.
  intros Hnd Hscan Hlen Hmeas Htxt.
  set (columns := OrderedColumns query) in *.
  assert (HScan : Scan row (length columns) = inr vals) by (by apply Scan_inr).
  destruct (classify_Done s columns vals Htxt) as [d Hd].
  pose proof (classify_spec s vals (columnCells columns).1) as Hc.
  rewrite Hd in Hc. destruct Hc as (_ & Hm & Ht & Hf).
  assert (Hcell : forall h p, (columnCells columns).1 !! h = Some p ->
            columns !! p = Some h /\ vals !! p = Some (cellAt vals p)).
  { intros h p Hl. apply columnCells_lookup_NoDup in Hl; [|done]. split; [done|].
    destruct (lookup_lt_is_Some_2 vals p) as [v Hv].
    - rewrite Hlen. by eapply lookup_lt_Some.
    - by rewrite (cellAt_lookup _ _ _ Hv). }
  eexists. split; [|split_and!].
  - rewrite accRow_unfold. fold columns. by rewrite HScan, Hd.
  - intros h v. simpl. rewrite Hf. case_decide as Hcls.
    + rewrite fmap_Some. split.
      * intros (p & Hl & ->). destruct (Hcell h p Hl) as [Hcol Hval].
        destruct Hcls. eauto 6.
      * intros (_ & _ & i & Hcol & Hval). exists i. split.
        -- by apply columnCells_lookup_NoDup.
        -- by rewrite (cellAt_lookup _ _ _ Hval).
    + split; [done|]. intros (? & ? & _). by destruct Hcls.
  - intros h str. simpl. rewrite Ht. case_decide as Hcls.
    + rewrite bind_Some. split.
      * intros (p & Hl & Hstr). destruct (Hcell h p Hl) as [Hcol Hval].
        destruct Hcls. split_and!; [done..|]. exists p. split; [done|].
        rewrite Hval. destruct (cellAt vals p); simpl in Hstr; congruence.
      * intros (_ & _ & i & Hcol & Hval). exists i. split.
        -- by apply columnCells_lookup_NoDup.
        -- by rewrite (cellAt_lookup _ _ _ Hval).
    + split; [done|]. intros (? & ? & _). by destruct Hcls.
  - simpl. apply list_elem_of_lookup in Hmeas as [i Hi]. exists i. split; [done|].
    destruct (Htxt i "measurement" Hi) as [str Hv]; [by left|].
    rewrite Hm. apply (columnCells_lookup_NoDup _ _ _ Hnd) in Hi. rewrite Hi. simpl.
    by rewrite (cellAt_lookup _ _ _ Hv).
  - done.
Qed.

(** C2 as stated fails: the row of [unnamedQuery] has no [measurement]
    column, and [accRow] returns [nil] and reports a record for it. *)
Lemma accRow_without_measurement_reports_a_record :
  ("measurement" ∉ OrderedColumns unnamedQuery) /\
  accRow hostTagged unnamedQuery unnamedRow = ([AddFields unnamedMetric], Done None) /\
  ~ (exists e, (accRow hostTagged unnamedQuery unnamedRow).2 = Done (Some e)).
Proof.
  split_and!.
  - apply (bool_decide_unpack _). vm_compute. exact I.
  - vm_compute. reflexivity.
  - intros [e He]. vm_compute in He. discriminate.
Qed.

(** The unchecked assertion: a tag column that holds a number makes
    [accRow] panic; no record is reported and no error is returned. *)
Lemma accRow_panics_on_numeric_tag :
  accRow hostTagged scenarioQuery numericHostRow = ([], Panicked).
Proof. vm_compute. reflexivity. Qed.

Lemma accRow_builds_fields_tags_measurement_witness :
  exists m,
    accRow hostTagged scenarioQuery scenarioRow = ([AddFields m], Done None) /\
    (forall h v, fields m !! h = Some v <->
       h <> "measurement" /\ (h ∉ tags hostTagged) /\
       exists i, OrderedColumns scenarioQuery !! i = Some h /\
                 [VString "m"; VString "h1"; VInt 42] !! i = Some v) /\
    (forall h str, metricTags m !! h = Some str <->
       h <> "measurement" /\ h ∈ tags hostTagged /\
       exists i, OrderedColumns scenarioQuery !! i = Some h /\
                 [VString "m"; VString "h1"; VInt 42] !! i = Some (VString str)) /\
    (exists i, OrderedColumns scenarioQuery !! i = Some "measurement" /\
               [VString "m"; VString "h1"; VInt 42] !! i = Some (VString (measurement m))) /\
    timestamp m = now scenarioRow.
Proof.
  apply (accRow_builds_fields_tags_measurement hostTagged scenarioQuery scenarioRow
           [VString "m"; VString "h1"; VInt 42]).
  - apply (bool_decide_unpack _). vm_compute. exact I.
  - reflexivity.
  - reflexivity.
  - apply (bool_decide_unpack _). vm_compute. exact I.
  - intros i h Hi Hcls.
    destruct i as [|[|[|i]]]; simpl in Hi; try discriminate; injection Hi as <-.
    + by exists "m".
    + by exists "h1".
    + exfalso. destruct Hcls as [Hcls|Hcls]; [discriminate|].
      revert Hcls. apply (bool_decide_unpack _). vm_compute. exact I.
Defined.

Lemma scenario_record : accRow hostTagged scenarioQuery scenarioRow
                        = ([AddFields scenarioMetric], Done None).
Proof. vm_compute. reflexivity. Qed.

(** ** One unit *)

Section Unit.

Variable s : SQLServer.
Implicit Types (query : Query) (rows : list Row) (w : World).

(** The row loop talks to the accumulator only, by [AddFields]. *)
Lemma rowLoop_events query rows final :
  Forall (fun e => exists m, e = AddFields m) (rowLoop s query rows final).1.
Proof.
  induction rows as [|row rows IH]; simpl; [constructor|].
  destruct (accRow_cases s query row) as [[m ->]|[[e ->]| ->]]; simpl; eauto.
Qed.

(** Rows that decode are reported before the loop looks at the next row:
    their records open the trace, whatever the later rows do. *)
Lemma rowLoop_reports_as_it_goes query (pre : list Row) (ms : list Metric)
    rest final :
  Forall2 (fun row m => accRow s query row = ([AddFields m], Done None)) pre ms ->
  rowLoop s query (pre ++ rest) final =
    ((AddFields <$> ms) ++ (rowLoop s query rest final).1,
     (rowLoop s query rest final).2).
Proof.
  induction 1 as [|row m pre ms Hrow _ IH]; simpl.
  - by destruct (rowLoop s query rest final).
  - rewrite Hrow. simpl. by rewrite IH.
Qed.

(** A row that does not decode ends the loop there, with its failure. *)
Lemma rowLoop_stops_at_failure query row rest final :
  (accRow s query row).2 <> Done None ->
  rowLoop s query (row :: rest) final = ([], (accRow s query row).2).
Proof.
  intros Hfail. simpl.
  destruct (accRow_cases s query row) as [[m Hr]|[[e Hr]|Hr]];
    rewrite Hr in *; simpl in *; done.
Qed.

(** The exits of a unit, one by one: the open fails; the query is refused;
    the columns cannot be read; the row loop ends, with [nil], an error or a
    panic. *)
Lemma gatherServer_exits w server query :
  gatherServer w s server query =
    match sql_Open w server with
    | Some e => ([], Done (Some e))
    | None =>
      match conn_Query w server (Script_of query) with
      | inl e => ([ConnOpen server; ConnClose server], Done (Some e))
      | inr rows =>
        match Columns rows with
        | inl e =>
            ([ConnOpen server; RowsClose server; ConnClose server], Done (Some e))
        | inr columns =>
            let loop := rowLoop s (mkQuery (Script_of query) columns)
                                (Next rows) (Err rows) in
            (ConnOpen server :: loop.1 ++ [RowsClose server; ConnClose server], loop.2)
        end
      end
    end.
Proof.
  unfold gatherServer. destruct (sql_Open w server); [done|].
  destruct (conn_Query w server (Script_of query)) as [e|rows]; [done|].
  destruct (Columns rows) as [e|columns]; [done|]. simpl.
  by rewrite <- app_assoc.
Qed.

(** The trace of a unit that got its connection: the open, then records
    and at most the cursor's close, then the release. *)
Lemma gatherServer_opened w server query :
  sql_Open w server = None ->
  exists body,
    (gatherServer w s server query).1 = ConnOpen server :: body ++ [ConnClose server] /\
    Forall (fun e => (exists m, e = AddFields m) \/ e = RowsClose server) body.
Proof.
  intros Hopen. unfold gatherServer. rewrite Hopen.
  destruct (conn_Query w server (Script_of query)) as [e|rows]; simpl.
  - exists []. split; [done|constructor].
  - destruct (Columns rows) as [e|columns]; simpl.
    + exists [RowsClose server]. split; [done|]. constructor; [by right|constructor].
    + eexists. split; [reflexivity|]. apply Forall_app. split.
      * eapply Forall_impl; [apply rowLoop_events|]. simpl. auto.
      * constructor; [by right|constructor].
Qed.

Lemma gatherServer_not_opened w server query e :
  sql_Open w server = Some e ->
  gatherServer w s server query = ([], Done (Some e)).
Proof. intros Hopen. unfold gatherServer. by rewrite Hopen. Qed.

Lemma body_no_connection (server : string) (body : list event) :
  Forall (fun e => (exists m, e = AddFields m) \/ e = RowsClose server) body ->
  opens body = [] /\ releases body = [] /\ errorsOf body = [].
Proof.
  induction 1 as [|e body [[m ->]| ->] _ IH]; simpl; [done|done..].
Qed.

(** A unit hands no error to the accumulator itself. *)
Lemma gatherServer_adds_no_error w server query :
  errorsOf (gatherServer w s server query).1 = [].
Proof.
  destruct (sql_Open w server) as [e|] eqn:Hopen.
  - by rewrite (gatherServer_not_opened _ _ _ _ Hopen).
  - destruct (gatherServer_opened w server query Hopen) as (body & -> & Hbody).
    destruct (body_no_connection _ _ Hbody) as (_ & _ & Herr).
    unfold errorsOf in *. simpl. by rewrite omap_app, Herr.
Qed.

End Unit.

Lemma metricsOf_app (t1 t2 : list event) :
  metricsOf (t1 ++ t2) = metricsOf t1 ++ metricsOf t2.
Proof. apply omap_app. Qed.

Lemma metricsOf_AddFields (ms : list Metric) : metricsOf (AddFields <$> ms) = ms.
Proof.
  induction ms as [|m ms IH]; [done|].
  unfold metricsOf. simpl. f_equal. exact IH.
Qed.

(** C7: a unit that has opened its connection releases it once, as its
    last act, whatever happens in between: the query is refused, the columns
    cannot be read, a row does not decode (by an error or by a panic), or
    the rows run out. *)
Theorem connection_released_exactly_once
    (w : World) (s : SQLServer) (server : string) (query : Query) :
  sql_Open w server = None ->
  opens (gatherServer w s server query).1 = [server] /\
  releases (gatherServer w s server query).1 = [server] /\
  head (gatherServer w s server query).1 = Some (ConnOpen server) /\
  last (gatherServer w s server query).1 = Some (ConnClose server).
Proof.
  intros Hopen.
  destruct (gatherServer_opened s w server query Hopen) as (body & -> & Hbody).
  destruct (body_no_connection _ _ Hbody) as (Ho & Hr & _).
  unfold opens, releases in *. simpl. rewrite !omap_app, Ho, Hr. simpl.
  split_and!; [done..|]. by rewrite app_comm_cons, last_snoc.
Qed.

(** C8: the records of the rows that decoded before a unit failed are in
    the unit's trace, in row order, ahead of the failure: each was handed to
    the accumulator inside [accRow], before the next row was fetched. *)
Theorem records_before_a_failure_are_reported
    (w : World) (s : SQLServer) (server : string) (query : Query)
    (rows : Rows) (columns : list string)
    (pre : list Row) (bad : Row) (post : list Row) (ms : list Metric) :
  sql_Open w server = None ->
  conn_Query w server (Script_of query) = inr rows ->
  Columns rows = inr columns ->
  Next rows = pre ++ bad :: post ->
  Forall2 (fun row m =>
             accRow s (mkQuery (Script_of query) columns) row = ([AddFields m], Done None))
          pre ms ->
  (accRow s (mkQuery (Script_of query) columns) bad).2 <> Done None ->
  (gatherServer w s server query).1
    = ConnOpen server :: (AddFields <$> ms) ++ [RowsClose server; ConnClose server] /\
  metricsOf (gatherServer w s server query).1 = ms /\
  (gatherServer w s server query).2
    = (accRow s (mkQuery (Script_of query) columns) bad).2.
Proof.
  intros Hopen Hquery Hcols Hnext Hpre Hbad.
  assert (Ht : gatherServer w s server query
               = (ConnOpen server :: (AddFields <$> ms) ++ [RowsClose server; ConnClose server],
                  (accRow s (mkQuery (Script_of query) columns) bad).2)).
  { unfold gatherServer. rewrite Hopen, Hquery, Hcols, Hnext.
    rewrite (rowLoop_reports_as_it_goes _ _ _ _ _ _ Hpre).
    rewrite (rowLoop_stops_at_failure _ _ _ _ _ Hbad). simpl.
    rewrite app_nil_r, <- !app_assoc. simpl.
    by destruct (accRow s _ bad) as [t [[e|]|]]. }
  rewrite Ht. cbn [fst snd]. split_and!; [done| |done].
  change (ConnOpen server :: (AddFields <$> ms) ++ [RowsClose server; ConnClose server])
    with ([ConnOpen server] ++ (AddFields <$> ms) ++ [RowsClose server; ConnClose server]).
  rewrite !metricsOf_app, metricsOf_AddFields. simpl. by rewrite app_nil_r.
Qed.

Lemma connection_released_exactly_once_witness :
  releases (gatherServer numericHostWorld hostTagged "Server=db1;" scenarioQuery).1
    = ["Server=db1;"] /\
  (gatherServer numericHostWorld hostTagged "Server=db1;" scenarioQuery).2 = Panicked /\
  releases (gatherServer brokenRowWorld hostTagged "Server=db1;" scenarioQuery).1
    = ["Server=db1;"].
Proof.
  split_and!.
  - apply (connection_released_exactly_once numericHostWorld hostTagged
             "Server=db1;" scenarioQuery eq_refl).
  - vm_compute. reflexivity.
  - apply (connection_released_exactly_once brokenRowWorld hostTagged
             "Server=db1;" scenarioQuery eq_refl).
Defined.

Lemma records_before_a_failure_are_reported_witness :
  metricsOf (gatherServer brokenRowWorld hostTagged "Server=db1;" scenarioQuery).1
    = [scenarioMetric] /\
  metricsOf (gatherServer numericHostWorld hostTagged "Server=db1;" scenarioQuery).1
    = [scenarioMetric].
Proof.
  split.
  - apply (records_before_a_failure_are_reported brokenRowWorld hostTagged
             "Server=db1;" scenarioQuery brokenRows
             ["measurement"; "host"; "value"] [scenarioRow] brokenRow [scenarioRow]
             [scenarioMetric] eq_refl eq_refl eq_refl eq_refl).
    + repeat constructor.
    + vm_compute. discriminate.
  - apply (records_before_a_failure_are_reported numericHostWorld hostTagged
             "Server=db1;" scenarioQuery numericHostRows
             ["measurement"; "host"; "value"] [scenarioRow] numericHostRow []
             [scenarioMetric] eq_refl eq_refl eq_refl eq_refl).
    + repeat constructor.
    + vm_compute. discriminate.
Defined.

(** ** Merging the goroutines *)

Section Interleaving.

Context {A : Type}.
Implicit Types (ts : list (list A)) (tr t : list A).

Lemma interleave_cons_nil ts tr : interleave ts tr -> interleave ([] :: ts) tr.
Proof.
  induction 1 as [ts Hall|ts i x t tr Hl _ IH].
  - apply interleave_done. by constructor.
  - by apply (interleave_step _ (S i) x t).
Qed.

Lemma interleave_cons t ts tr : interleave ts tr -> interleave (t :: ts) (t ++ tr).
Proof.
  intros H. induction t as [|x t IH]; simpl.
  - by apply interleave_cons_nil.
  - by apply (interleave_step _ 0%nat x t).
Qed.

(** One goroutine after the other is one of the merges. *)
Lemma interleave_concat ts : interleave ts (concat ts).
Proof.
  induction ts as [|t ts IH]; simpl.
  - apply interleave_done. constructor.
  - by apply interleave_cons.
Qed.

(** A merge holds the events of the goroutines, no more and no less. *)
Lemma interleave_Permutation ts tr : interleave ts tr -> tr ≡ₚ concat ts.
Proof.
  induction 1 as [ts Hall|ts i x t tr Hl _ IH].
  - induction Hall as [|t ts -> _ IH]; [done|]. simpl. by rewrite <- IH.
  - rewrite IH. rewrite insert_take_drop by (by eapply lookup_lt_Some).
    rewrite <- (take_drop_middle ts i (x :: t) Hl) at 3.
    rewrite !concat_app. simpl. by rewrite Permutation_middle.
Qed.

End Interleaving.

Section Cycle.

Implicit Types (w : World) (s : SQLServer) (tr : list (nat * event)).

Lemma eventsOf_tagged i t : eventsOf i (tagged i t) = t.
Proof.
  induction t as [|e t IH]; [done|]. unfold eventsOf, tagged. simpl.
  rewrite decide_True by done. f_equal. exact IH.
Qed.

(** Within a merge, the events of goroutine [i] are its own, in order. *)
Lemma interleave_eventsOf (ts : list (list (nat * event))) tr :
  interleave ts tr ->
  (forall j t, ts !! j = Some t -> Forall (fun x => x.1 = j) t) ->
  forall i t, ts !! i = Some t -> eventsOf i tr = t.*2.
Proof.
  induction 1 as [ts Hall|ts i x t tr Hl _ IH]; intros Htag i' t' Hl'.
  - by rewrite (Forall_lookup_1 _ _ _ _ Hall Hl').
  - pose proof (Htag i _ Hl) as Hx. apply Forall_cons in Hx as [Hx Ht].
    assert (Hi : (i < length ts)%nat) by (by eapply lookup_lt_Some).
    assert (Htag' : forall j t0, <[i:=t]> ts !! j = Some t0 ->
              Forall (fun x => x.1 = j) t0).
    { intros j t0 Hj. destruct (decide (i = j)) as [<-|Hne].
      - rewrite list_lookup_insert_eq in Hj by done. by injection Hj as <-.
      - rewrite list_lookup_insert_ne in Hj by done. by eapply Htag. }
    unfold eventsOf. simpl. fold (eventsOf i' tr).
    destruct (decide (x.1 = i')) as [Heq|Hne].
    + assert (i = i') as <- by congruence.
      rewrite Hl in Hl'. injection Hl' as <-. simpl. f_equal.
      apply (IH Htag'). by apply list_lookup_insert_eq.
    + apply (IH Htag'). rewrite list_lookup_insert_ne; [done|congruence].
Qed.

Lemma taggedTraces_tagged (gs : list (M unit)) j t :
  taggedTraces gs !! j = Some t -> Forall (fun x => x.1 = j) t.
Proof.
  unfold taggedTraces. rewrite list_lookup_imap, fmap_Some.
  intros (g & _ & ->). unfold tagged. apply Forall_fmap. by apply Forall_true.
Qed.

Lemma goroutines_lookup w s i serv name q :
  units s !! i = Some (serv, (name, q)) ->
  goroutines w s !! i = Some (gatherUnit w s serv q).
Proof. intros Hu. unfold goroutines. by rewrite list_lookup_fmap, Hu. Qed.

(** In a cycle that returns, the events marked [i] are those of the
    goroutine of pair [i]. *)
Lemma Gather_unit_events w s s' tr i serv name q :
  Gather w s s' tr (Returned None) ->
  units s' !! i = Some (serv, (name, q)) ->
  eventsOf i tr = (gatherUnit w s' serv q).1.
Proof.
  intros Hrun Hu. inversion Hrun as [tr0 Hall Hmerge|]; subst.
  rewrite (interleave_eventsOf _ _ Hmerge (taggedTraces_tagged _)
             i (tagged i (gatherUnit w (initialize w s) serv q).1)).
  - unfold tagged. rewrite <- list_fmap_compose. apply list_fmap_id.
  - unfold taggedTraces. rewrite list_lookup_imap.
    by rewrite (goroutines_lookup _ _ _ _ _ _ Hu).
Qed.

(** The goroutine adds the error of its unit, as it got it, and only it. *)
Lemma gatherUnit_errors w s (u : string * (string * Query)) :
  errorsOf (gatherUnit w s u.1 u.2.2).1 = option_list (unitError w s u).
Proof.
  unfold gatherUnit, unitError.
  pose proof (gatherServer_adds_no_error s w u.1 u.2.2) as Hno.
  destruct (gatherServer w s u.1 u.2.2) as [t [[e|]|]]; simpl in *;
    unfold errorsOf in *; rewrite ?omap_app, ?Hno; done.
Qed.

Lemma collectedErrors_tagged i t : collectedErrors (tagged i t) = errorsOf t.
Proof.
  induction t as [|e t IH]; [done|].
  unfold collectedErrors, errorsOf, tagged.
  destruct e; simpl; try exact IH. f_equal. exact IH.
Qed.

Lemma collectedErrors_app tr1 tr2 :
  collectedErrors (tr1 ++ tr2) = collectedErrors tr1 ++ collectedErrors tr2.
Proof. apply omap_app. Qed.

Lemma collectedErrors_concat (gs : list (M unit)) : forall k,
  collectedErrors (concat (imap (fun i g => tagged (k + i) g.1) gs))
  = concat ((fun g : M unit => errorsOf g.1) <$> gs).
Proof.
  induction gs as [|g gs IH]; intros k; [done|].
  rewrite imap_cons, fmap_cons.
  change (concat (?x :: ?l)) with (x ++ concat l).
  rewrite collectedErrors_app, Nat.add_0_r, collectedErrors_tagged. f_equal.
  rewrite <- (IH (S k)). f_equal. f_equal.
  apply imap_ext. intros i x _. simpl. f_equal. lia.
Qed.

(** What the accumulator has collected when a cycle returns: the errors
    the units returned, one for each unit that returned one. *)
Lemma Gather_collected_errors w s s' tr :
  Gather w s s' tr (Returned None) ->
  collectedErrors tr ≡ₚ omap (unitError w s') (units s').
Proof.
  intros Hrun. inversion Hrun as [tr0 Hall Hmerge|]; subst.
  apply interleave_Permutation in Hmerge.
  unfold collectedErrors at 1. rewrite Hmerge.
  fold (collectedErrors (concat (taggedTraces (goroutines w (initialize w s))))).
  unfold taggedTraces. rewrite (collectedErrors_concat _ 0).
  unfold goroutines. generalize (units (initialize w s)). intros us.
  induction us as [|u us IH]; [done|]. simpl.
  rewrite gatherUnit_errors, IH. by destruct (unitError w (initialize w s) u).
Qed.

(** The schedule that runs the goroutines in order is a cycle. *)
Lemma runInOrder_sound (gs : list (M unit)) : forall k,
  match (runInOrder k gs).2 with
  | Returned None =>
      Forall (fun g : M unit => g.2 = Done tt) gs /\
      (runInOrder k gs).1 = concat (imap (fun i g => tagged (k + i) g.1) gs)
  | Returned (Some _) => False
  | Crashed =>
      Exists (fun g : M unit => g.2 = Panicked) gs /\
      (runInOrder k gs).1 `prefix_of` concat (imap (fun i g => tagged (k + i) g.1) gs)
  end.
Proof.
  induction gs as [|g gs IH]; intros k; [by split|].
  rewrite imap_cons. change (concat (?x :: ?l)) with (x ++ concat l).
  rewrite (imap_ext _ (fun i g => tagged (S k + i) g.1))
    by (intros; simpl; f_equal; lia).
  rewrite Nat.add_0_r. cbn [runInOrder].
  destruct g as [t [[]|]]; simpl.
  - specialize (IH (S k)). destruct (runInOrder (S k) gs) as [tr [[e|]|]]; simpl in *.
    + done.
    + destruct IH as [Hall ->]. split; [by constructor|done].
    + destruct IH as [Hex Hpre]. split; [by apply Exists_cons_tl|].
      by apply prefix_app.
  - split; [by apply Exists_cons_hd|]. by apply prefix_app_r.
Qed.

Lemma GatherInOrder_sound w s :
  Gather w s (GatherInOrder w s).1.1 (GatherInOrder w s).1.2 (GatherInOrder w s).2.
Proof.
  unfold GatherInOrder. simpl.
  pose proof (runInOrder_sound (goroutines w (initialize w s)) 0) as H.
  destruct (runInOrder 0 (goroutines w (initialize w s))) as [tr [[e|]|]]; simpl in *.
  - done.
  - destruct H as [Hall ->]. apply Gather_returns; [done|]. apply interleave_concat.
  - destruct H as [Hex Hpre]. eapply Gather_crashes; [done| |exact Hpre].
    apply interleave_concat.
Qed.

(** [Gather] has one [return], and it returns [nil]: a cycle whose
    goroutines all come back returns success, whatever errors they bring. *)
Lemma Gather_returns_nil_unless_panic w s :
  Forall (fun g : M unit => g.2 = Done tt) (goroutines w (initialize w s)) ->
  (exists tr, Gather w s (initialize w s) tr (Returned None)) /\
  (forall s' tr out, Gather w s s' tr out -> out = Returned None).
Proof.
  intros Hall. split.
  - exists (concat (taggedTraces (goroutines w (initialize w s)))).
    apply Gather_returns; [done|]. apply interleave_concat.
  - intros s' tr out Hrun. inversion Hrun as [|tr0 tr' Hex]; subst; [done|].
    apply Exists_exists in Hex as (g & Hin & Hg).
    rewrite Forall_forall in Hall. specialize (Hall g Hin). congruence.
Qed.

End Cycle.

Lemma GatherInOrder_returns (w : World) (s : SQLServer) :
  (GatherInOrder w s).2 = Returned None ->
  Gather w s (initialize w s) (GatherInOrder w s).1.2 (Returned None).
Proof. intros H. rewrite <- H. apply GatherInOrder_sound. Qed.

(** C3, as the code has it: in a cycle that returns, a unit whose
    [gatherServer] returned an error contributes exactly that error, once,
    as [gatherServer] returned it: nothing is wrapped around it, neither the
    server nor the name of the query. The collection as a whole is these
    errors, one for each such unit. *)
Theorem failing_unit_contributes_the_error_it_returned
    (w : World) (s s' : SQLServer) (tr : list (nat * event))
    (i : nat) (serv name : string) (q : Query) (e : error) :
  Gather w s s' tr (Returned None) ->
  units s' !! i = Some (serv, (name, q)) ->
  (gatherServer w s' serv q).2 = Done (Some e) ->
  errorsOf (eventsOf i tr) = [e] /\
  collectedErrors tr ≡ₚ omap (unitError w s') (units s').
Proof.
  intros Hrun Hu He. split; [|by apply (Gather_collected_errors w s)].
  rewrite (Gather_unit_events _ _ _ _ _ _ _ _ Hrun Hu).
  pose proof (gatherUnit_errors w s' (serv, (name, q))) as Hg. simpl in Hg.
  rewrite Hg. unfold unitError. simpl. by rewrite He.
Qed.

(** C3 as stated fails: two servers refuse the connection with the same
    error, and the collection holds that error twice. Nothing in a collected
    error tells the server or the query it comes from. *)
Lemma collected_errors_name_no_server_or_query :
  collectedErrors (GatherInOrder loginFails twoServers).1.2
    = ["login failed"; "login failed"] /\
  ~ (exists origin : error -> string * string,
       forall w s s' tr i serv name q e,
         Gather w s s' tr (Returned None) ->
         units s' !! i = Some (serv, (name, q)) ->
         (gatherServer w s' serv q).2 = Done (Some e) ->
         origin e = (serv, name)).
Proof.
  split; [vm_compute; reflexivity|].
  intros [origin Horigin].
  assert (Hrun : Gather loginFails twoServers (initialize loginFails twoServers)
                        (GatherInOrder loginFails twoServers).1.2 (Returned None))
    by (apply GatherInOrder_returns; vm_compute; reflexivity).
  assert (Ha : origin "login failed" = ("Server=a;", "Cpu")).
  { apply (Horigin _ _ _ _ 0%nat "Server=a;" "Cpu" (mkQuery sqlServerCpuV2 []) _ Hrun);
      vm_compute; reflexivity. }
  assert (Hb : origin "login failed" = ("Server=b;", "Cpu")).
  { apply (Horigin _ _ _ _ 1%nat "Server=b;" "Cpu" (mkQuery sqlServerCpuV2 []) _ Hrun);
      vm_compute; reflexivity. }
  rewrite Ha in Hb. discriminate.
Qed.

Lemma failing_unit_contributes_the_error_it_returned_witness :
  errorsOf (eventsOf 1 (GatherInOrder loginFails twoServers).1.2) = ["login failed"].
Proof.
  apply (proj1 (failing_unit_contributes_the_error_it_returned
                  loginFails twoServers (initialize loginFails twoServers)
                  (GatherInOrder loginFails twoServers).1.2
                  1%nat "Server=b;" "Cpu" (mkQuery sqlServerCpuV2 []) "login failed"
                  (GatherInOrder_returns loginFails twoServers eq_refl)
                  eq_refl eq_refl)).
Defined.

(** The one goroutine of [cpuOnly] against [numericHostWorld]: it reports
    the first row, panics on the second, and releases what it holds. *)
Lemma numericHost_goroutines :
  goroutines numericHostWorld (initialize numericHostWorld cpuOnly)
  = [([ConnOpen "Server=db1;"; AddFields scenarioMetric;
       RowsClose "Server=db1;"; ConnClose "Server=db1;"], Panicked)].
Proof. vm_compute. reflexivity. Qed.

(** C5 fails on this input. The tag key [host] names a column that holds a
    number; the assertion in [accRow] panics inside the goroutine, nothing
    recovers it, and the cycle ends in a crash: [Gather] does not return,
    and the failure of the pair is in no collected error. *)
Theorem Gather_dies_on_a_numeric_tag :
  (GatherInOrder numericHostWorld cpuOnly).2 = Crashed /\
  collectedMetrics (GatherInOrder numericHostWorld cpuOnly).1.2 = [scenarioMetric] /\
  forall s' tr out,
    Gather numericHostWorld cpuOnly s' tr out ->
    out = Crashed /\ collectedErrors tr = [].
Proof.
  split_and!; [vm_compute; reflexivity..|].
  intros s' tr out Hrun.
  inversion Hrun as [tr0 Hall|tr0 tr' Hex Hmerge [k Hk]]; subst.
  - rewrite numericHost_goroutines in Hall.
    apply Forall_cons in Hall as [Hg _]. discriminate.
  - split; [done|]. rewrite numericHost_goroutines in Hmerge.
    apply interleave_Permutation in Hmerge.
    assert (Hnone : collectedErrors (tr ++ k) = []).
    { apply Permutation_nil_r. unfold collectedErrors at 1. rewrite Hmerge.
      vm_compute. reflexivity. }
    rewrite collectedErrors_app in Hnone. by apply app_eq_nil in Hnone as [-> _].
Qed.


(** The goroutine ends as its unit does: it comes back whenever
    [gatherServer] returns, with [nil] or with an error. *)
Lemma gatherUnit_result (w : World) (s : SQLServer) (server : string) (query : Query) :
  (gatherUnit w s server query).2 =
    match (gatherServer w s server query).2 with
    | Done _ => Done tt
    | Panicked => Panicked
    end.
Proof.
  unfold gatherUnit. by destruct (gatherServer w s server query) as [t [[e|]|]].
Qed.

(** C2, as the code has it. A row without a [measurement] column is no
    decode failure: when its tag columns hold text, [accRow] returns [nil]
    and reports one record, whose measurement name is empty, and the row loop
    goes on with the next row. When [accRow] does return an error for a row,
    wherever the row stands, it reports no record for that row; the unit
    stops there and returns that error, after the records of the rows before;
    its goroutine hands the error to the accumulator and comes back. And a
    unit that returns an error ends only its own pair: if no other pair
    panics the cycle returns [nil], and the events of every pair are in it,
    complete. *)
Theorem row_errors_stay_within_their_pair :
  (forall (s : SQLServer) (query : Query) (row : Row) (vals : list value),
     Scan row (length (OrderedColumns query)) = inr vals ->
     "measurement" ∉ OrderedColumns query ->
     (forall i h, OrderedColumns query !! i = Some h -> h ∈ tags s ->
                  exists str, vals !! i = Some (VString str)) ->
     exists m,
       accRow s query row = ([AddFields m], Done None) /\
       measurement m = "" /\
       forall rest final,
         rowLoop s query (row :: rest) final
         = (AddFields m :: (rowLoop s query rest final).1,
            (rowLoop s query rest final).2)) /\
  (forall (w : World) (s : SQLServer) (server : string) (query : Query)
          (rows : Rows) (columns : list string)
          (pre : list Row) (row : Row) (post : list Row) (ms : list Metric)
          (e : error),
     sql_Open w server = None ->
     conn_Query w server (Script_of query) = inr rows ->
     Columns rows = inr columns ->
     Next rows = pre ++ row :: post ->
     Forall2 (fun r m =>
                accRow s (mkQuery (Script_of query) columns) r
                = ([AddFields m], Done None)) pre ms ->
     (accRow s (mkQuery (Script_of query) columns) row).2 = Done (Some e) ->
     accRow s (mkQuery (Script_of query) columns) row = ([], Done (Some e)) /\
     gatherServer w s server query
     = (ConnOpen server :: (AddFields <$> ms)
          ++ [RowsClose server; ConnClose server],
        Done (Some e)) /\
     gatherUnit w s server query
     = (ConnOpen server :: (AddFields <$> ms)
          ++ [RowsClose server; ConnClose server; AddError e],
        Done tt)) /\
  (forall (w : World) (s s' : SQLServer) (tr : list (nat * event)) (out : outcome)
          (i : nat) (serv name : string) (q : Query) (e : error),
     Gather w s s' tr out ->
     units s' !! i = Some (serv, (name, q)) ->
     (gatherServer w s' serv q).2 = Done (Some e) ->
     (forall j u, j <> i -> units s' !! j = Some u ->
                  (gatherServer w s' u.1 u.2.2).2 <> Panicked) ->
     out = Returned None /\
     errorsOf (eventsOf i tr) = [e] /\
     forall j u, units s' !! j = Some u ->
                 eventsOf j tr = (gatherUnit w s' u.1 u.2.2).1).
Proof.
  split_and!.
  - intros s query row vals HScan Hno Htxt.
    assert (Htxt' : forall i h, OrderedColumns query !! i = Some h ->
              h = "measurement" \/ h ∈ tags s -> exists str, vals !! i = Some (VString str)).
    { intros i h Hi [->|Htag]; [|by eapply Htxt].
      destruct Hno. apply list_elem_of_lookup. eauto. }
    destruct (classify_Done s _ vals Htxt') as [d Hd].
    pose proof (classify_spec s vals (columnCells (OrderedColumns query)).1) as Hc.
    rewrite Hd in Hc. destruct Hc as (_ & Hm & _).
    assert (Hrow : accRow s query row
                   = ([AddFields (mkMetric (d_measurement d) (d_fields d) (d_tags d)
                                           (now row))], Done None))
      by (by rewrite accRow_unfold, HScan, Hd).
    eexists. split_and!; [exact Hrow| |].
    + simpl. rewrite Hm.
      destruct ((columnCells (OrderedColumns query)).1 !! "measurement") as [p|] eqn:Hl;
        [|done].
      apply columnCells_lookup in Hl as [Hl _]. destruct Hno.
      apply list_elem_of_lookup. eauto.
    + intros rest final. simpl. rewrite Hrow. simpl.
      by destruct (rowLoop s query rest final).
  - intros w s server query rows columns pre row post ms e
           Hopen Hquery Hcols Hnext Hpre He.
    assert (Hrow : accRow s (mkQuery (Script_of query) columns) row
                   = ([], Done (Some e))).
    { destruct (accRow_cases s (mkQuery (Script_of query) columns) row)
        as [[m Hr]|[[e' Hr]|Hr]]; rewrite Hr in He; simpl in He; try done.
      by injection He as ->. }
    assert (Hserver : gatherServer w s server query
                      = (ConnOpen server :: (AddFields <$> ms)
                           ++ [RowsClose server; ConnClose server],
                         Done (Some e))).
    { rewrite gatherServer_exits, Hopen, Hquery, Hcols, Hnext. cbv zeta.
      rewrite (rowLoop_reports_as_it_goes _ _ _ _ _ _ Hpre).
      rewrite rowLoop_stops_at_failure by (rewrite Hrow; done).
      rewrite Hrow. simpl. by rewrite app_nil_r. }
    split_and!; [done|done|].
    unfold gatherUnit. rewrite Hserver. simpl.
    f_equal. f_equal. by rewrite <- app_assoc.
  - intros w s s' tr out i serv name q e Hrun Hi He Hothers.
    assert (Hs' : s' = initialize w s) by (by inversion Hrun). subst s'.
    assert (Hall : Forall (fun g : M unit => g.2 = Done tt)
                          (goroutines w (initialize w s))).
    { apply Forall_lookup. intros j g Hg. unfold goroutines in Hg.
      rewrite list_lookup_fmap, fmap_Some in Hg. destruct Hg as (u & Hu & ->).
      rewrite gatherUnit_result. destruct (decide (j = i)) as [->|Hne].
      - rewrite Hi in Hu. injection Hu as <-. simpl. by rewrite He.
      - pose proof (Hothers j u Hne Hu) as Hnp.
        by destruct ((gatherServer w (initialize w s) u.1 u.2.2).2). }
    assert (Hout : out = Returned None)
      by (eapply (proj2 (Gather_returns_nil_unless_panic w s Hall)); exact Hrun).
    subst out. split_and!; [done| |].
    + rewrite (Gather_unit_events _ _ _ _ _ _ _ _ Hrun Hi).
      pose proof (gatherUnit_errors w (initialize w s) (serv, (name, q))) as Hg.
      simpl in Hg. rewrite Hg. unfold unitError. simpl. by rewrite He.
    + intros j [serv' [name' q']] Hu. simpl.
      apply (Gather_unit_events _ _ _ _ _ _ _ _ Hrun Hu).
Qed.

Lemma row_errors_stay_within_their_pair_witness :
  (exists m, accRow hostTagged unnamedQuery unnamedRow = ([AddFields m], Done None)
             /\ measurement m = "") /\
  gatherUnit brokenRowWorld hostTagged "Server=db1;" scenarioQuery
  = (ConnOpen "Server=db1;" :: (AddFields <$> [scenarioMetric])
       ++ [RowsClose "Server=db1;"; ConnClose "Server=db1;";
           AddError "sql: Scan error on column index 1"],
     Done tt) /\
  (GatherInOrder oneRefuses twoServers).2 = Returned None /\
  errorsOf (eventsOf 0 (GatherInOrder oneRefuses twoServers).1.2) = ["login failed"] /\
  eventsOf 1 (GatherInOrder oneRefuses twoServers).1.2
  = (gatherUnit oneRefuses (initialize oneRefuses twoServers)
                "Server=b;" (mkQuery sqlServerCpuV2 [])).1.
Proof.
  pose proof row_errors_stay_within_their_pair as (Hnone & Hrow & Hcycle).
  split; [|split].
  - clear Hrow Hcycle.
    destruct (Hnone hostTagged unnamedQuery unnamedRow [VString "h1"; VInt 42])
      as (m & Hm & Hname & _).
    + reflexivity.
    + apply (bool_decide_unpack _). vm_compute. exact I.
    + intros i h Hi Htag.
      destruct i as [|[|i]]; simpl in Hi; try discriminate; injection Hi as <-.
      * by exists "h1".
      * exfalso. revert Htag. apply (bool_decide_unpack _). vm_compute. exact I.
    + exists m. split; [exact Hm|exact Hname].
  - clear Hnone Hcycle.
    apply (Hrow brokenRowWorld hostTagged "Server=db1;" scenarioQuery brokenRows
             ["measurement"; "host"; "value"] [scenarioRow] brokenRow [scenarioRow]
             [scenarioMetric] "sql: Scan error on column index 1"
             eq_refl eq_refl eq_refl eq_refl).
    + repeat constructor.
    + reflexivity.
  - clear Hnone Hrow.
    assert (Hothers : forall j u, j <> 0%nat ->
              units (initialize oneRefuses twoServers) !! j = Some u ->
              (gatherServer oneRefuses (initialize oneRefuses twoServers) u.1 u.2.2).2
              <> Panicked).
    { intros j u Hj Hu. destruct j as [|[|j]]; [destruct (Hj eq_refl)| |].
      - vm_compute in Hu. injection Hu as <-. vm_compute. intros H; inversion H.
      - vm_compute in Hu. inversion Hu. }
    destruct (Hcycle oneRefuses twoServers (initialize oneRefuses twoServers)
                (GatherInOrder oneRefuses twoServers).1.2
                (GatherInOrder oneRefuses twoServers).2
                0%nat "Server=a;" "Cpu" (mkQuery sqlServerCpuV2 []) "login failed"
                (GatherInOrder_sound oneRefuses twoServers) eq_refl eq_refl Hothers)
      as (Hout & Herr & Hev).
    exact (conj Hout (conj Herr
             (Hev 1%nat ("Server=b;", ("Cpu", mkQuery sqlServerCpuV2 [])) eq_refl))).
Defined.


(** * Further properties *)

(** ** Initialization and selection *)

Section Initialization.

Implicit Types (w : World) (s : SQLServer) (name : string) (l : list string).

Lemma discovery_keeps_the_rest w s :
  queries (includeConnStringsForLocalInstances w s) = queries s /\
  tags (includeConnStringsForLocalInstances w s) = tags s /\
  isInitialized (includeConnStringsForLocalInstances w s) = isInitialized s /\
  includeQueries (includeConnStringsForLocalInstances w s) = includeQueries s /\
  excludeQueries (includeConnStringsForLocalInstances w s) = excludeQueries s.
Proof.
  unfold includeConnStringsForLocalInstances.
  by destruct (getLocalInstances w), (os_Hostname w).
Qed.

Lemma initialize_initialized w s : isInitialized (initialize w s) = true.
Proof.
  unfold initialize. destruct (isInitialized s) eqn:Hi; [done|].
  destruct (LocalInstancesAutoDiscovery (initQueries s)); [|done].
  by rewrite (proj1 (proj2 (proj2 (discovery_keeps_the_rest w (initQueries s))))).
Qed.

Lemma initialize_queries w s :
  isInitialized s = false -> queries (initialize w s) = queries (initQueries s).
Proof.
  intros Hi. unfold initialize. rewrite Hi.
  destruct (LocalInstancesAutoDiscovery (initQueries s)); [|done].
  apply discovery_keeps_the_rest.
Qed.

Lemma nameSet_ext l1 l2 :
  (forall x, x ∈ l1 <-> x ∈ l2) -> nameSet l1 = nameSet l2.
Proof. intros H. apply set_eq. intros x. by rewrite !elem_of_nameSet. Qed.

Lemma nil_iff_no_element l1 l2 :
  (forall x, x ∈ l1 <-> x ∈ l2) -> l1 <> [] <-> l2 <> [].
Proof.
  intros H. destruct l1 as [|a l1], l2 as [|b l2]; try done.
  - split; [done|]. intros _. exfalso. apply (not_elem_of_nil b), H. left.
  - split; [|done]. intros _. exfalso. apply (not_elem_of_nil a), H. left.
Qed.

Lemma addQueries_size s (entries : list (string * Script)) :
  forall qs : gmap string Query,
    (size (addQueries s entries qs) <= size qs + length entries)%nat.
Proof.
  unfold addQueries. induction entries as [|e es IH]; intros qs; simpl; [lia|].
  etrans; [apply IH|]. unfold addQuery.
  destruct (queryFilter s e.1); [|lia].
  rewrite map_size_insert. destruct (qs !! e.1); unfold id; lia.
Qed.

End Initialization.

(** X1: the initialization of [Gather] happens once. After a first cycle
    the plugin is marked initialized, and the first statement of any later
    cycle, against any state of the host, changes nothing: the queries are
    not selected again and no discovered server is appended twice. *)
Theorem initialize_happens_once (w w' : World) (s : SQLServer) :
  isInitialized (initialize w s) = true /\
  initialize w' (initialize w s) = initialize w s.
Proof.
  pose proof (initialize_initialized w s) as Hi. split; [done|].
  unfold initialize at 1. by rewrite Hi.
Qed.

(** X2: whatever the include-list and the exclude-list hold, [initQueries]
    selects only names of the catalog of the configured version, binds each
    to the text the catalog pairs it with, leaves its column list empty, and
    so never selects more than 26 queries. *)
Theorem selection_stays_within_the_catalog (s : SQLServer) :
  (forall name q,
     queries (initQueries s) !! name = Some q ->
     (name, Script_of q) ∈ catalog (AzureDB s) (QueryVersion s) /\
     OrderedColumns q = []) /\
  (size (queries (initQueries s))
     <= length (catalog (AzureDB s) (QueryVersion s)))%nat /\
  (length (catalog (AzureDB s) (QueryVersion s)) <= 26)%nat.
Proof.
  split_and!.
  - intros name q Hq. apply initQueries_lookup in Hq. tauto.
  - rewrite initQueries_queries.
    etrans; [apply addQueries_size|]. by rewrite map_size_empty.
  - unfold catalog. destruct (AzureDB s), (QueryVersion s =? 2)%Z; simpl; lia.
Qed.

(** X3: with an include-list and no exclude-list, the include-list is a
    whitelist: a name is selected exactly when the catalog has it and the
    include-list names it. *)
Theorem include_list_alone_is_a_whitelist (s : SQLServer) (name : string) (sc : Script) :
  IncludeQuery s <> [] ->
  ExcludeQuery s = [] ->
  queries (initQueries s) !! name = Some (mkQuery sc []) <->
  (name, sc) ∈ catalog (AzureDB s) (QueryVersion s) /\ name ∈ IncludeQuery s.
Proof.
  intros HI HE. rewrite initQueries_lookup, queryFilter_initQueries, HE.
  rewrite (bool_decide_eq_false_2 ([] <> [])) by (intros H; by apply H).
  rewrite (bool_decide_eq_true_2 _ HI), bool_decide_eq_true. simpl. tauto.
Qed.

(** X4: the three configured lists are read as sets. Two configurations
    whose include-lists, exclude-lists and tag-key lists hold the same names,
    in any order and with any repetition, build the same lookup sets and
    select the same queries. *)
Theorem configured_lists_are_read_as_sets
    (servers : list string) (v : Z) (azure discover : bool)
    (I1 I2 E1 E2 T1 T2 : list string) :
  (forall x, x ∈ I1 <-> x ∈ I2) ->
  (forall x, x ∈ E1 <-> x ∈ E2) ->
  (forall x, x ∈ T1 <-> x ∈ T2) ->
  let s1 := initQueries (configure servers v azure I1 E1 discover T1) in
  let s2 := initQueries (configure servers v azure I2 E2 discover T2) in
  includeQueries s1 = includeQueries s2 /\
  excludeQueries s1 = excludeQueries s2 /\
  tags s1 = tags s2 /\
  queries s1 = queries s2.
Proof.
  intros HI HE HT s1 s2. subst s1 s2.
  set (c1 := configure servers v azure I1 E1 discover T1).
  set (c2 := configure servers v azure I2 E2 discover T2).
  assert (Hinc : includeQueries (initQueries c1) = includeQueries (initQueries c2))
    by (by apply nameSet_ext).
  assert (Hexc : excludeQueries (initQueries c1) = excludeQueries (initQueries c2))
    by (by apply nameSet_ext).
  split_and!; [done|done|by apply nameSet_ext|].
  apply map_eq. intros name. apply option_eq. intros q.
  rewrite !initQueries_lookup.
  by rewrite (queryFilter_ext _ _ name Hinc Hexc).
Qed.

Lemma include_list_alone_is_a_whitelist_witness :
  queries (initQueries cpuOnly) !! "Cpu" = Some (mkQuery sqlServerCpuV2 []).
Proof.
  apply (proj2 (include_list_alone_is_a_whitelist cpuOnly "Cpu" sqlServerCpuV2
                  ltac:(discriminate) eq_refl)).
  split; apply (bool_decide_unpack _); vm_compute; exact I.
Defined.

Lemma configured_lists_are_read_as_sets_witness :
  queries (initQueries (configure [] 2 false ["Cpu"; "LogUsage"; "Cpu"] [] false ["a"; "b"]))
  = queries (initQueries (configure [] 2 false ["LogUsage"; "Cpu"] [] false ["b"; "a"; "a"])).
Proof.
  apply (configured_lists_are_read_as_sets [] 2 false false
           ["Cpu"; "LogUsage"; "Cpu"] ["LogUsage"; "Cpu"] [] []
           ["a"; "b"] ["b"; "a"; "a"]).
  - intros x. rewrite !elem_of_cons, !elem_of_nil. tauto.
  - done.
  - intros x. rewrite !elem_of_cons, !elem_of_nil. tauto.
Defined.

(** ** Discovery and the pairs of a cycle *)

Section Discovery.

Implicit Types (w : World) (s : SQLServer).

(** The loop of [includeConnStringsForLocalInstances] appends, in order. *)
Lemma discovery_loop w (hostname : string) (instances : list string) :
  forall servers : list string,
    foldl (fun servers instance =>
             if decide (strings_ToUpper w instance = "MSSQLSERVER")
             then servers ++ ["Server=" +:+ hostname +:+ ";Integrated Security=SSPI;"]
             else servers ++ ["Server=" +:+ hostname +:+ "\" +:+ instance
                                +:+ ";Integrated Security=SSPI;"])
          servers instances
    = servers ++ (localConnString w hostname <$> instances).
Proof.
  induction instances as [|i rest IH]; intros servers; simpl.
  - by rewrite app_nil_r.
  - rewrite IH. unfold localConnString at 2.
    destruct (decide (strings_ToUpper w i = "MSSQLSERVER")); by rewrite <- app_assoc.
Qed.

Lemma units_nil s : queries s = ∅ -> units s = [].
Proof.
  intros Hq. unfold units. rewrite Hq, map_to_list_empty.
  induction (Servers s) as [|serv l IH]; [done|]. simpl. exact IH.
Qed.

Lemma interleave_nil {A} (tr : list A) : interleave [] tr -> tr = [].
Proof. inversion 1 as [|ts i x t tr' Hl]; [done|]. by rewrite lookup_nil in Hl. Qed.

End Discovery.

(** X5: on the first cycle, with discovery switched on, a readable
    registry and a known host name, the servers of the cycle are the
    configured ones followed by one connection string per installed instance,
    in the registry's order: the host alone for the default instance, host
    and instance name for any other. The selected queries are those of
    [initQueries]. *)
Theorem discovery_appends_one_server_per_instance
    (w : World) (s : SQLServer) (instances : list string) (hostname : string) :
  isInitialized s = false ->
  LocalInstancesAutoDiscovery s = true ->
  getLocalInstances w = inr instances ->
  os_Hostname w = inr hostname ->
  Servers (initialize w s) = Servers s ++ (localConnString w hostname <$> instances) /\
  queries (initialize w s) = queries (initQueries s) /\
  tags (initialize w s) = tags (initQueries s).
Proof.
  intros Hi Hd Hinst Hhost. unfold initialize. rewrite Hi.
  change (LocalInstancesAutoDiscovery (initQueries s)) with (LocalInstancesAutoDiscovery s).
  rewrite Hd. unfold includeConnStringsForLocalInstances. rewrite Hinst, Hhost.
  split_and!; [|done..].
  change (Servers (withServers ?a ?l)) with l.
  by rewrite discovery_loop.
Qed.

(** X6: discovery is never fatal. When it is switched off, when the
    registry cannot be read, or when the host name is unknown, the first
    cycle initializes the plugin as [initQueries] alone does: the configured
    servers, unchanged, and the selected queries. *)
Theorem failed_discovery_changes_nothing (w : World) (s : SQLServer) :
  isInitialized s = false ->
  LocalInstancesAutoDiscovery s = false \/
  (exists e, getLocalInstances w = inl e) \/
  (exists e, os_Hostname w = inl e) ->
  initialize w s = initQueries s /\ Servers (initialize w s) = Servers s.
Proof.
  intros Hi Hcase.
  assert (H : initialize w s = initQueries s).
  { unfold initialize. rewrite Hi.
    change (LocalInstancesAutoDiscovery (initQueries s))
      with (LocalInstancesAutoDiscovery s).
    destruct Hcase as [->|[[e He]|[e He]]]; [done|..];
      destruct (LocalInstancesAutoDiscovery s); try done;
      unfold includeConnStringsForLocalInstances; rewrite He; try done.
    by destruct (getLocalInstances w). }
  by rewrite H.
Qed.

(** X7: the pairs of a cycle are the full cross product: every configured
    server, as often as it is listed, with every selected query under its
    name, and nothing else. There are as many pairs, and as many goroutines,
    as servers times queries. *)
Theorem units_are_the_cross_product (w : World) (s : SQLServer) :
  length (units s) = (length (Servers s) * size (queries s))%nat /\
  length (goroutines w s) = (length (Servers s) * size (queries s))%nat /\
  forall serv name q,
    (serv, (name, q)) ∈ units s <-> serv ∈ Servers s /\ queries s !! name = Some q.
Proof.
  assert (Hlen : length (units s) = (length (Servers s) * size (queries s))%nat).
  { unfold units. induction (Servers s) as [|serv l IH]; [done|]. simpl.
    by rewrite length_app, length_fmap, length_map_to_list, IH. }
  split_and!; [done|by unfold goroutines; rewrite length_fmap|].
  clear Hlen. intros serv name q. unfold units.
  induction (Servers s) as [|serv' l IH]; simpl.
  - rewrite !elem_of_nil. tauto.
  - rewrite elem_of_app, IH, list_elem_of_fmap, elem_of_cons. split.
    + intros [([name' q'] & Heq & Hin)|[Hs Hq]]; [|tauto].
      injection Heq as -> -> ->. apply elem_of_map_to_list in Hin. tauto.
    + intros [[->|Hs] Hq]; [left|tauto].
      exists (name, q). split; [done|]. by apply elem_of_map_to_list.
Qed.

(** X8: an include-list that names no query of the catalog, with no
    exclude-list, selects nothing, and that is no error: the first cycle has
    no pair to run, touches neither a server nor the accumulator, and returns
    [nil]. *)
Theorem unknown_include_names_select_nothing
    (w : World) (s s' : SQLServer) (tr : list (nat * event)) (out : outcome) :
  isInitialized s = false ->
  IncludeQuery s <> [] ->
  ExcludeQuery s = [] ->
  (forall name sc, (name, sc) ∈ catalog (AzureDB s) (QueryVersion s) ->
                   name ∉ IncludeQuery s) ->
  Gather w s s' tr out ->
  queries s' = ∅ /\ tr = [] /\ out = Returned None.
Proof.
  intros Hi HI HE Hnone Hrun.
  assert (Hq : queries (initialize w s) = ∅).
  { rewrite (initialize_queries _ _ Hi). apply map_eq. intros name.
    rewrite lookup_empty. apply eq_None_not_Some. intros [q Hq].
    apply initQueries_lookup in Hq as (Hf & Hin & _).
    rewrite queryFilter_initQueries, HE in Hf.
    rewrite (bool_decide_eq_false_2 ([] <> [])) in Hf by (intros H; by apply H).
    rewrite (bool_decide_eq_true_2 _ HI) in Hf. apply bool_decide_eq_true in Hf.
    by apply (Hnone _ _ Hin). }
  assert (Hg : goroutines w (initialize w s) = [])
    by (unfold goroutines; by rewrite (units_nil _ Hq)).
  inversion Hrun as [tr0 Hall Hmerge|tr0 tr' Hex]; subst.
  - rewrite Hg in Hmerge. apply interleave_nil in Hmerge. by subst.
  - rewrite Hg in Hex. by apply Exists_nil in Hex.
Qed.

Lemma discovery_appends_one_server_per_instance_witness :
  Servers (initialize twoLocalInstances discovering)
  = ["Server=db1;"; "Server=db-host;Integrated Security=SSPI;";
     "Server=db-host\REPORTING;Integrated Security=SSPI;"].
Proof.
  apply (proj1 (discovery_appends_one_server_per_instance twoLocalInstances discovering
                  ["MSSQLSERVER"; "REPORTING"] "db-host"
                  eq_refl eq_refl eq_refl eq_refl)).
Defined.

Lemma failed_discovery_changes_nothing_witness :
  Servers (initialize numericHostWorld discovering) = ["Server=db1;"].
Proof.
  apply (proj2 (failed_discovery_changes_nothing numericHostWorld discovering eq_refl
                  (or_intror (or_introl (ex_intro _ "no registry" eq_refl))))).
Defined.

Lemma unknown_include_names_select_nothing_witness :
  (GatherInOrder loginFails unknownInclude).1.2 = [] /\
  (GatherInOrder loginFails unknownInclude).2 = Returned None.
Proof.
  apply (unknown_include_names_select_nothing loginFails unknownInclude
           (GatherInOrder loginFails unknownInclude).1.1
           (GatherInOrder loginFails unknownInclude).1.2
           (GatherInOrder loginFails unknownInclude).2 eq_refl).
  - discriminate.
  - reflexivity.
  - intros name sc Hin Hname. apply list_elem_of_singleton in Hname as ->.
    unfold catalog, azureCatalog, catalogV2 in Hin. simpl in Hin.
    repeat (apply elem_of_cons in Hin as [[=]|Hin]).
    by apply elem_of_nil in Hin.
  - apply GatherInOrder_sound.
Defined.

(** ** More on row decoding *)

Section RowRecords.

Variable s : SQLServer.
Implicit Types (query : Query) (row : Row) (m : Metric) (h : string).

(** The column map knows exactly the names of the columns. *)
Lemma columnCells_is_Some (columns : list string) h :
  is_Some ((columnCells columns).1 !! h) <-> h ∈ columns.
Proof.
  induction columns as [|c columns IH] using rev_ind.
  - simpl. rewrite lookup_empty, elem_of_nil. split; [by intros [? ?]|done].
  - rewrite columnCells_snoc, elem_of_app, list_elem_of_singleton. simpl.
    destruct (decide (c = h)) as [->|Hne].
    + rewrite lookup_insert_eq. split; [auto|by eexists].
    + rewrite lookup_insert_ne by done. rewrite IH. split; [auto|].
      by intros [?|?].
Qed.

(** What stands behind a record that [accRow] reports. *)
Lemma accRow_record query row m :
  accRow s query row = ([AddFields m], Done None) ->
  exists vals d,
    Scan row (length (OrderedColumns query)) = inr vals /\
    classify s vals (columnCells (OrderedColumns query)).1 = Done d /\
    m = mkMetric (d_measurement d) (d_fields d) (d_tags d) (now row).
Proof.
  rewrite accRow_unfold. destruct (Scan row _) as [e|vals]; [done|].
  destruct (classify s vals _) as [d|] eqn:Hd; [|done].
  intros [= <-]. eauto.
Qed.

Lemma scanned_cell row (vals : list value) (columns : list string) p h :
  Scan row (length columns) = inr vals ->
  columns !! p = Some h ->
  vals !! p = Some (cellAt vals p).
Proof.
  intros HScan Hp. apply Scan_inr in HScan as [_ Hlen].
  destruct (lookup_lt_is_Some_2 vals p) as [v Hv].
  - rewrite Hlen. by eapply lookup_lt_Some.
  - by rewrite (cellAt_lookup _ _ _ Hv).
Qed.

End RowRecords.

(** X9: when a result names a column more than once, the record is built
    from the last column of that name: its value is the measurement, the tag
    or the field, and the values of the earlier columns of the name are
    dropped. *)
Theorem repeated_column_name_keeps_the_last_value
    (s : SQLServer) (query : Query) (row : Row) (vals : list value)
    (m : Metric) (h : string) (p : nat) :
  Scan row (length (OrderedColumns query)) = inr vals ->
  accRow s query row = ([AddFields m], Done None) ->
  OrderedColumns query !! p = Some h ->
  (forall p', (p < p')%nat -> OrderedColumns query !! p' <> Some h) ->
  (h = "measurement" -> vals !! p = Some (VString (measurement m))) /\
  (h <> "measurement" -> h ∈ tags s ->
     exists str, vals !! p = Some (VString str) /\ metricTags m !! h = Some str) /\
  (h <> "measurement" -> h ∉ tags s -> fields m !! h = vals !! p).
Proof.
  intros HScan Hrec Hp Hlast.
  destruct (accRow_record s _ _ _ Hrec) as (vals' & d & HScan' & Hd & ->).
  rewrite HScan in HScan'. injection HScan' as <-.
  pose proof (classify_spec s vals (columnCells (OrderedColumns query)).1) as Hc.
  rewrite Hd in Hc. destruct Hc as (Htxt & Hm & Ht & Hf).
  assert (Hl : (columnCells (OrderedColumns query)).1 !! h = Some p)
    by (by apply columnCells_lookup).
  pose proof (scanned_cell _ _ _ _ _ HScan Hp) as Hv.
  simpl. split_and!.
  - intros ->. rewrite Hm, Hl. simpl.
    destruct (Htxt _ _ Hl) as [str Hstr]; [by left|]. rewrite Hstr. simpl.
    rewrite Hv. destruct (cellAt vals p); simpl in Hstr; congruence.
  - intros Hne Htag. destruct (Htxt _ _ Hl) as [str Hstr]; [by right|].
    exists str. split.
    + rewrite Hv. destruct (cellAt vals p); simpl in Hstr; congruence.
    + rewrite Ht, decide_True by done. by rewrite Hl.
  - intros Hne Htag. rewrite Hf, decide_True by done. by rewrite Hl, Hv.
Qed.

(** X10: [accRow] panics exactly when the row scans and the last column of
    some name, which is [measurement] or a tag key, holds a value that is not
    a string: a number, a boolean, bytes, a time, or NULL. It then reports
    nothing. *)
Theorem accRow_panics_exactly_on_non_text (s : SQLServer) (query : Query) (row : Row) :
  accRow s query row = ([], Panicked) <->
  exists vals h p v,
    Scan row (length (OrderedColumns query)) = inr vals /\
    OrderedColumns query !! p = Some h /\
    (forall p', (p < p')%nat -> OrderedColumns query !! p' <> Some h) /\
    (h = "measurement" \/ h ∈ tags s) /\
    vals !! p = Some v /\ asText v = None.
Proof.
  rewrite accRow_unfold. split.
  - destruct (Scan row _) as [e|vals] eqn:HScan; [done|].
    pose proof (classify_spec s vals (columnCells (OrderedColumns query)).1) as Hc.
    destruct (classify s vals _) as [d|]; [done|]. intros _.
    destruct Hc as (h & p & Hl & Hcls & Hbad).
    apply columnCells_lookup in Hl as [Hp Hlast].
    exists vals, h, p, (cellAt vals p). split_and!; try done.
    by eapply scanned_cell.
  - intros (vals & h & p & v & HScan & Hp & Hlast & Hcls & Hv & Hbad).
    rewrite HScan.
    rewrite (classify_Panicked s (OrderedColumns query) vals h p); [done| |done|].
    + by apply columnCells_lookup.
    + by rewrite (cellAt_lookup _ _ _ Hv).
Qed.

(** X11: a record accounts for every column of its row, each in one place:
    a column other than [measurement] is a tag when a tag key names it and a
    field when none does, never both; no tag or field is called
    [measurement] or comes from elsewhere; and without a [measurement] column
    the measurement name is empty. *)
Theorem every_column_lands_in_one_place
    (s : SQLServer) (query : Query) (row : Row) (m : Metric) (h : string) :
  accRow s query row = ([AddFields m], Done None) ->
  (is_Some (fields m !! h) <->
     h ∈ OrderedColumns query /\ h <> "measurement" /\ h ∉ tags s) /\
  (is_Some (metricTags m !! h) <->
     h ∈ OrderedColumns query /\ h <> "measurement" /\ h ∈ tags s) /\
  ("measurement" ∉ OrderedColumns query -> measurement m = "").
Proof.
  intros Hrec.
  destruct (accRow_record s _ _ _ Hrec) as (vals & d & HScan & Hd & ->).
  pose proof (classify_spec s vals (columnCells (OrderedColumns query)).1) as Hc.
  rewrite Hd in Hc. destruct Hc as (Htxt & Hm & Ht & Hf). simpl.
  split_and!.
  - rewrite Hf. case_decide as Hcls.
    + rewrite fmap_is_Some, columnCells_is_Some. tauto.
    + split; [by intros [? ?]|]. intros (_ & ? & ?). by destruct Hcls.
  - rewrite Ht. case_decide as Hcls.
    + rewrite <- columnCells_is_Some. split.
      * intros [str Hstr]. apply bind_Some in Hstr as (p & Hl & _).
        split; [by eexists|done].
      * intros [[p Hl] _]. rewrite Hl. simpl. apply (Htxt _ _ Hl). right. apply Hcls.
    + split; [by intros [? ?]|]. intros (_ & ? & ?). by destruct Hcls.
  - intros Hno. rewrite Hm.
    destruct ((columnCells (OrderedColumns query)).1 !! "measurement") eqn:Hl; [|done].
    destruct Hno. apply columnCells_is_Some. by eexists.
Qed.

(** X12: Go hands out the entries of [columnMap] in an order of its own.
    [accRow] answers the same in every order: the same error, the same panic,
    the same record. *)
Theorem accRow_ignores_the_visiting_order
    (s : SQLServer) (query : Query) (row : Row) (order : list (string * nat)) :
  order ≡ₚ map_to_list (columnCells (OrderedColumns query)).1 ->
  accRowVisiting order s query row = accRow s query row.
Proof.
  intros Horder. unfold accRowVisiting, accRow.
  destruct (columnCells (OrderedColumns query)) as [cm n]. simpl in Horder.
  destruct (Scan row n) as [e|cells]; [done|].
  by rewrite (classify_any_order s cells cm order Horder).
Qed.

Lemma repeated_column_name_keeps_the_last_value_witness :
  fields (mkMetric "m" {["value" := VInt 2]} {["host" := "h1"]} 1600000003) !! "value"
  = Some (VInt 2).
Proof.
  apply (proj2 (proj2 (repeated_column_name_keeps_the_last_value
                  hostTagged repeatedQuery repeatedRow
                  [VString "m"; VInt 1; VString "h1"; VInt 2]
                  (mkMetric "m" {["value" := VInt 2]} {["host" := "h1"]} 1600000003)
                  "value" 3%nat eq_refl eq_refl eq_refl
                  ltac:(intros [|[|[|[|p']]]] Hlt; simpl; solve [lia | done])))).
  - discriminate.
  - apply (bool_decide_unpack _). vm_compute. exact I.
Defined.

Lemma every_column_lands_in_one_place_witness :
  is_Some (fields scenarioMetric !! "value") /\
  is_Some (metricTags scenarioMetric !! "host").
Proof.
  split.
  - apply (proj1 (every_column_lands_in_one_place hostTagged scenarioQuery scenarioRow
                    scenarioMetric "value" eq_refl)).
    split_and!; [|discriminate|]; apply (bool_decide_unpack _); vm_compute; exact I.
  - apply (proj1 (proj2 (every_column_lands_in_one_place hostTagged scenarioQuery
                    scenarioRow scenarioMetric "host" eq_refl))).
    split_and!; [|discriminate|]; apply (bool_decide_unpack _); vm_compute; exact I.
Defined.

Lemma accRow_ignores_the_visiting_order_witness :
  accRowVisiting
    (reverse (map_to_list (columnCells (OrderedColumns scenarioQuery)).1))
    hostTagged scenarioQuery scenarioRow
  = accRow hostTagged scenarioQuery scenarioRow.
Proof.
  apply (accRow_ignores_the_visiting_order hostTagged scenarioQuery scenarioRow).
  apply reverse_Permutation.
Defined.

Lemma accRow_panics_exactly_on_non_text_witness :
  accRow hostTagged scenarioQuery nullHostRow = ([], Panicked).
Proof.
  apply (proj2 (accRow_panics_exactly_on_non_text hostTagged scenarioQuery nullHostRow)).
  exists [VString "m"; VNil; VInt 42], "host", 1%nat, VNil.
  split_and!; try reflexivity.
  - intros [|[|[|p']]] Hlt; simpl; solve [lia | done].
  - right. apply (bool_decide_unpack _). vm_compute. exact I.
Defined.

(** ** More on units and cycles *)

Section UnitsAndCycles.

Implicit Types (w : World) (s : SQLServer) (tr : list (nat * event)).

(** A row loop that returns [nil] has reported every row, and the cursor
    has no error. *)
Lemma rowLoop_nil s (query : Query) (rows : list Row) (final : option error) :
  (rowLoop s query rows final).2 = Done None ->
  final = None /\ length (metricsOf (rowLoop s query rows final).1) = length rows.
Proof.
  induction rows as [|row rows IH]; simpl.
  - by intros [= ->].
  - destruct (accRow_cases s query row) as [[m ->]|[[e ->]| ->]]; simpl; [|done..].
    intros Hr. destruct (IH Hr) as [-> Hlen]. split; [done|].
    unfold metricsOf in *. simpl. by rewrite Hlen.
Qed.

Lemma units_length s :
  length (units s) = (length (Servers s) * size (queries s))%nat.
Proof.
  unfold units. induction (Servers s) as [|serv l IH]; [done|]. simpl.
  by rewrite length_app, length_fmap, length_map_to_list, IH.
Qed.

Lemma omap_snd {B} (g : event -> option B) tr :
  omap g tr.*2 = omap (fun x : nat * event => g x.2) tr.
Proof.
  induction tr as [|x tr IH]; [done|].
  change (omap g (x :: tr).*2)
    with (match g x.2 with Some y => y :: omap g tr.*2 | None => omap g tr.*2 end).
  by rewrite IH.
Qed.

Lemma projected_tagged {B} (g : event -> option B) i (t : list event) :
  omap (fun x : nat * event => g x.2) (tagged i t) = omap g t.
Proof.
  induction t as [|e t IH]; [done|].
  change (omap (fun x : nat * event => g x.2) (tagged i (e :: t)))
    with (match g e with
          | Some y => y :: omap (fun x : nat * event => g x.2) (tagged i t)
          | None => omap (fun x : nat * event => g x.2) (tagged i t)
          end).
  by rewrite IH.
Qed.

Lemma projected_concat {B} (g : event -> option B) (gs : list (M unit)) : forall k,
  omap (fun x : nat * event => g x.2)
       (concat (imap (fun i g0 => tagged (k + i) g0.1) gs))
  = concat ((fun g0 : M unit => omap g g0.1) <$> gs).
Proof.
  induction gs as [|g0 gs IH]; intros k; [done|].
  rewrite imap_cons, fmap_cons.
  change (concat (?x :: ?l)) with (x ++ concat l).
  rewrite omap_app, projected_tagged. f_equal.
  rewrite <- (IH (S k)). f_equal. f_equal.
  apply imap_ext. intros i x _. simpl. f_equal. lia.
Qed.

(** Any reading of the events of a cycle that returns is the readings of
    its goroutines, put together. *)
Lemma Gather_projected {B} (g : event -> option B) w s s' tr :
  Gather w s s' tr (Returned None) ->
  omap g tr.*2 ≡ₚ concat ((fun g0 : M unit => omap g g0.1) <$> goroutines w s').
Proof.
  intros Hrun. inversion Hrun as [tr0 Hall Hmerge|]; subst.
  apply interleave_Permutation in Hmerge.
  rewrite omap_snd, Hmerge. unfold taggedTraces.
  by rewrite (projected_concat g _ 0).
Qed.

(** The goroutine adds no record to those of its unit. *)
Lemma gatherUnit_metrics w s (u : string * (string * Query)) :
  metricsOf (gatherUnit w s u.1 u.2.2).1 = unitMetrics w s u.
Proof.
  unfold gatherUnit, unitMetrics.
  destruct (gatherServer w s u.1 u.2.2) as [t [[e|]|]]; simpl;
    unfold metricsOf; rewrite ?omap_app; simpl; by rewrite ?app_nil_r.
Qed.

(** A unit opens and releases alike, however it ends. *)
Lemma gatherUnit_balanced w s (server : string) (query : Query) :
  opens (gatherUnit w s server query).1 = releases (gatherUnit w s server query).1.
Proof.
  assert (Hs : opens (gatherServer w s server query).1
               = releases (gatherServer w s server query).1).
  { destruct (sql_Open w server) as [e|] eqn:Hopen.
    - by rewrite (gatherServer_not_opened _ _ _ _ _ Hopen).
    - destruct (gatherServer_opened s w server query Hopen) as (body & -> & Hbody).
      destruct (body_no_connection _ _ Hbody) as (Ho & Hr & _).
      unfold opens, releases in *. simpl. by rewrite !omap_app, Ho, Hr. }
  unfold gatherUnit.
  destruct (gatherServer w s server query) as [t [[e|]|]]; simpl in *;
    unfold opens, releases in *; rewrite ?omap_app, ?Hs; done.
Qed.

End UnitsAndCycles.

(** X13: a unit whose rows all decode reports one record per row, in row
    order, between the open and the two closes, and returns what
    [rows.Err()] answers: [nil], or the cursor's error although every row
    that was delivered has been reported. *)
Theorem unit_reports_every_row
    (w : World) (s : SQLServer) (server : string) (query : Query)
    (rows : Rows) (columns : list string) (ms : list Metric) :
  sql_Open w server = None ->
  conn_Query w server (Script_of query) = inr rows ->
  Columns rows = inr columns ->
  Forall2 (fun row m =>
             accRow s (mkQuery (Script_of query) columns) row = ([AddFields m], Done None))
          (Next rows) ms ->
  gatherServer w s server query
  = (ConnOpen server :: (AddFields <$> ms) ++ [RowsClose server; ConnClose server],
     Done (Err rows)).
Proof.
  intros Hopen Hquery Hcols Hrows.
  rewrite gatherServer_exits, Hopen, Hquery, Hcols. cbv zeta.
  rewrite <- (app_nil_r (Next rows)).
  rewrite (rowLoop_reports_as_it_goes _ _ _ _ _ _ Hrows). simpl.
  by rewrite app_nil_r.
Qed.

(** X14: a unit that returns [nil] has dropped nothing: it got its
    connection and its cursor, the cursor ended without an error, and the
    unit reported as many records as the cursor delivered rows. *)
Theorem unit_returning_nil_has_reported_every_row
    (w : World) (s : SQLServer) (server : string) (query : Query) (t : list event) :
  gatherServer w s server query = (t, Done None) ->
  exists rows,
    sql_Open w server = None /\
    conn_Query w server (Script_of query) = inr rows /\
    Err rows = None /\
    length (metricsOf t) = length (Next rows).
Proof.
  rewrite gatherServer_exits.
  destruct (sql_Open w server) as [e|]; [done|].
  destruct (conn_Query w server (Script_of query)) as [e|rows]; [done|].
  destruct (Columns rows) as [e|columns]; [done|]. cbv zeta.
  intros [= <- Hr]. exists rows. apply rowLoop_nil in Hr as [Herr Hlen].
  split_and!; [done..|].
  change (ConnOpen server :: ?l ++ ?k) with ([ConnOpen server] ++ l ++ k).
  rewrite !metricsOf_app, !length_app, Hlen. simpl. lia.
Qed.

(** X15: in a cycle that returns, the records the accumulator got from a
    pair are those its unit reports on its own, whatever the other pairs did
    and however the goroutines were scheduled; all the records of the cycle
    are those of its pairs, none lost and none added. *)
Theorem unit_records_reach_the_accumulator
    (w : World) (s s' : SQLServer) (tr : list (nat * event))
    (i : nat) (u : string * (string * Query)) :
  Gather w s s' tr (Returned None) ->
  units s' !! i = Some u ->
  metricsOf (eventsOf i tr) = unitMetrics w s' u /\
  collectedMetrics tr ≡ₚ concat (unitMetrics w s' <$> units s').
Proof.
  intros Hrun Hu. split.
  - destruct u as [serv [name q]].
    rewrite (Gather_unit_events _ _ _ _ _ _ _ _ Hrun Hu).
    apply (gatherUnit_metrics w s' (serv, (name, q))).
  - change (collectedMetrics tr)
      with (omap (fun x : nat * event =>
                    match x.2 with AddFields m => Some m | _ => None end) tr).
    rewrite <- (omap_snd (fun e => match e with AddFields m => Some m | _ => None end)).
    rewrite (Gather_projected _ w s s' tr Hrun). unfold goroutines.
    rewrite <- list_fmap_compose.
    assert (Heq : ((fun g0 : M unit =>
                      omap (fun e => match e with AddFields m => Some m | _ => None end) g0.1)
                   ∘ (fun u0 => gatherUnit w s' u0.1 u0.2.2)) <$> units s'
                  = unitMetrics w s' <$> units s').
    { apply list_fmap_ext. intros j u0 _. apply (gatherUnit_metrics w s' u0). }
    by rewrite Heq.
Qed.


Section FailedOpens.

Implicit Types (w : World) (s : SQLServer).

Lemma elem_of_units_server s (u : string * (string * Query)) :
  u ∈ units s -> u.1 ∈ Servers s.
Proof.
  unfold units. induction (Servers s) as [|serv l IH]; simpl.
  - by rewrite elem_of_nil.
  - rewrite elem_of_app, list_elem_of_fmap, elem_of_cons.
    intros [(q & -> & _)|Hin]; [by left|right; by apply IH].
Qed.

Lemma concat_readings_nil {B} (g : event -> option B) (gs : list (M unit)) :
  Forall (fun g0 : M unit => omap g g0.1 = []) gs ->
  concat ((fun g0 : M unit => omap g g0.1) <$> gs) = [].
Proof.
  induction 1 as [|g0 gs Hg _ IH]; [done|].
  rewrite fmap_cons. change (concat (?x :: ?l)) with (x ++ concat l).
  by rewrite Hg, IH.
Qed.

Lemma concat_readings_one {B} (g : event -> option B) (gs : list (M unit)) :
  Forall (fun g0 : M unit => length (omap g g0.1) = 1%nat) gs ->
  length (concat ((fun g0 : M unit => omap g g0.1) <$> gs)) = length gs.
Proof.
  induction 1 as [|g0 gs Hg _ IH]; [done|].
  rewrite fmap_cons. change (concat (?x :: ?l)) with (x ++ concat l).
  rewrite length_app, Hg, IH. done.
Qed.

(** A unit that is refused, when [sql.Open] looks at the connection string
    or when the query is sent over the connection opened for it, only hands
    the refusal to the accumulator. *)
Lemma goroutines_of_refusals w s :
  (forall u, u ∈ units s ->
     is_Some (sql_Open w u.1) \/
     exists e, conn_Query w u.1 (Script_of u.2.2) = inl e) ->
  Forall (fun g0 : M unit =>
            exists e, g0 = ([AddError e], Done tt) \/
                      exists serv, g0 = ([ConnOpen serv; ConnClose serv; AddError e],
                                         Done tt))
         (goroutines w s).
Proof.
  intros Hrefused. unfold goroutines. apply Forall_fmap, Forall_forall.
  intros u Hu. simpl. unfold gatherUnit. rewrite gatherServer_exits.
  destruct (sql_Open w u.1) as [e|] eqn:Hopen.
  - exists e. by left.
  - destruct (Hrefused u Hu) as [[e He]|[e He]]; [by rewrite Hopen in He|].
    rewrite He. exists e. right. by exists u.1.
Qed.

(** The error of a refused unit is the refusal. *)
Lemma unitError_of_refusal w s (u : string * (string * Query)) (e : error) :
  is_Some (sql_Open w u.1) \/
  (exists e', conn_Query w u.1 (Script_of u.2.2) = inl e') ->
  unitError w s u = Some e ->
  sql_Open w u.1 = Some e \/
  (sql_Open w u.1 = None /\ conn_Query w u.1 (Script_of u.2.2) = inl e).
Proof.
  intros Hrefused. unfold unitError. rewrite gatherServer_exits.
  destruct (sql_Open w u.1) as [e0|] eqn:Hopen.
  - intros [= <-]. by left.
  - destruct Hrefused as [[e0 He]|[e0 He]]; [done|].
    rewrite He. intros [= <-]. by right.
Qed.

End FailedOpens.

(** X16: when every server refuses, the cycle still returns [nil]. A
    refusal arrives where the connection is really made, when the query is
    sent ([sql.Open] only prepares the handle), or from [sql.Open] itself.
    No record is reported, and the accumulator gets one error for each pair
    of a server and a query, each one a refusal as the server gave it. *)
Theorem nothing_is_reported_when_every_server_refuses
    (w : World) (s s' : SQLServer) (tr : list (nat * event)) (out : outcome) :
  (forall u, u ∈ units s' ->
     is_Some (sql_Open w u.1) \/
     exists e, conn_Query w u.1 (Script_of u.2.2) = inl e) ->
  Gather w s s' tr out ->
  out = Returned None /\
  collectedMetrics tr = [] /\
  length (collectedErrors tr) = (length (Servers s') * size (queries s'))%nat /\
  forall e, e ∈ collectedErrors tr ->
    exists u, u ∈ units s' /\
      (sql_Open w u.1 = Some e \/
       (sql_Open w u.1 = None /\ conn_Query w u.1 (Script_of u.2.2) = inl e)).
Proof.
  intros Hrefused Hrun.
  pose proof (goroutines_of_refusals w s' Hrefused) as Hgs.
  assert (Hout : out = Returned None).
  { inversion Hrun as [|tr0 tr' Hex]; subst; [done|].
    apply Exists_exists in Hex as (g0 & Hin & Hg).
    rewrite Forall_forall in Hgs.
    destruct (Hgs g0 Hin) as [e [->|[serv ->]]]; done. }
  subst out. split_and!; [done|..].
  - change (collectedMetrics tr)
      with (omap (fun x : nat * event =>
                    match x.2 with AddFields m => Some m | _ => None end) tr).
    rewrite <- (omap_snd (fun e => match e with AddFields m => Some m | _ => None end)).
    apply Permutation_nil_r. rewrite (Gather_projected _ w s s' tr Hrun).
    rewrite concat_readings_nil; [done|].
    eapply Forall_impl; [exact Hgs|]. by intros g0 [e [->|[serv ->]]].
  - change (collectedErrors tr)
      with (omap (fun x : nat * event =>
                    match x.2 with AddError err => Some err | _ => None end) tr).
    rewrite <- (omap_snd (fun e => match e with AddError err => Some err | _ => None end)).
    rewrite (Gather_projected _ w s s' tr Hrun).
    rewrite concat_readings_one.
    + unfold goroutines. by rewrite length_fmap, units_length.
    + eapply Forall_impl; [exact Hgs|]. by intros g0 [e [->|[serv ->]]].
  - intros e He. rewrite (Gather_collected_errors w s s' tr Hrun) in He.
    apply list_elem_of_omap in He as (u & Hu & Herr).
    exists u. split; [done|].
    by apply (unitError_of_refusal w s' u e (Hrefused u Hu)).
Qed.

(** X17: a cycle that returns leaves no connection open: the servers it
    has released a connection of are those it has opened one to, each as
    often. *)
Theorem returning_cycle_has_released_every_connection
    (w : World) (s s' : SQLServer) (tr : list (nat * event)) :
  Gather w s s' tr (Returned None) ->
  opens tr.*2 ≡ₚ releases tr.*2.
Proof.
  intros Hrun. unfold opens, releases.
  rewrite !(Gather_projected _ w s s' tr Hrun). unfold goroutines.
  rewrite <- !list_fmap_compose.
  assert (Heq : forall l : list (string * (string * Query)),
            ((fun g0 : M unit =>
                omap (fun e => match e with ConnOpen server => Some server | _ => None end)
                     g0.1)
             ∘ (fun u => gatherUnit w s' u.1 u.2.2)) <$> l
            = ((fun g0 : M unit =>
                omap (fun e => match e with ConnClose server => Some server | _ => None end)
                     g0.1)
               ∘ (fun u => gatherUnit w s' u.1 u.2.2)) <$> l).
  { intros l. apply list_fmap_ext. intros j u _. simpl.
    apply (gatherUnit_balanced w s' u.1 u.2.2). }
  by rewrite Heq.
Qed.

Lemma unit_reports_every_row_witness :
  gatherServer interruptedWorld hostTagged "Server=db1;" scenarioQuery
  = (ConnOpen "Server=db1;" :: (AddFields <$> [scenarioMetric; scenarioMetric])
       ++ [RowsClose "Server=db1;"; ConnClose "Server=db1;"],
     Done (Some "read tcp: connection reset")).
Proof.
  apply (unit_reports_every_row interruptedWorld hostTagged "Server=db1;" scenarioQuery
           interruptedRows ["measurement"; "host"; "value"]
           [scenarioMetric; scenarioMetric] eq_refl eq_refl eq_refl).
  repeat constructor.
Defined.

Lemma unit_returning_nil_has_reported_every_row_witness :
  exists rows,
    sql_Open twoLocalInstances "Server=db1;" = None /\
    conn_Query twoLocalInstances "Server=db1;" (Script_of scenarioQuery) = inr rows /\
    Err rows = None /\
    length (metricsOf [ConnOpen "Server=db1;"; AddFields scenarioMetric;
                       RowsClose "Server=db1;"; ConnClose "Server=db1;"])
    = length (Next rows).
Proof.
  apply (unit_returning_nil_has_reported_every_row twoLocalInstances hostTagged
           "Server=db1;" scenarioQuery). reflexivity.
Defined.

Lemma unit_records_reach_the_accumulator_witness :
  metricsOf (eventsOf 0 (GatherInOrder brokenRowWorld cpuOnly).1.2)
  = unitMetrics brokenRowWorld (initialize brokenRowWorld cpuOnly)
                ("Server=db1;", ("Cpu", mkQuery sqlServerCpuV2 [])).
Proof.
  apply (proj1 (unit_records_reach_the_accumulator brokenRowWorld cpuOnly
                  (initialize brokenRowWorld cpuOnly)
                  (GatherInOrder brokenRowWorld cpuOnly).1.2 0%nat
                  ("Server=db1;", ("Cpu", mkQuery sqlServerCpuV2 []))
                  (GatherInOrder_returns brokenRowWorld cpuOnly eq_refl) eq_refl)).
Defined.

Lemma nothing_is_reported_when_every_server_refuses_witness :
  (GatherInOrder allRefuse twoServers).2 = Returned None /\
  collectedMetrics (GatherInOrder allRefuse twoServers).1.2 = [] /\
  length (collectedErrors (GatherInOrder allRefuse twoServers).1.2)
  = (length (Servers (GatherInOrder allRefuse twoServers).1.1)
     * size (queries (GatherInOrder allRefuse twoServers).1.1))%nat.
Proof.
  destruct (nothing_is_reported_when_every_server_refuses allRefuse twoServers
              (GatherInOrder allRefuse twoServers).1.1
              (GatherInOrder allRefuse twoServers).1.2
              (GatherInOrder allRefuse twoServers).2
              (fun u _ => or_intror (ex_intro _ "login failed" eq_refl))
              (GatherInOrder_sound allRefuse twoServers))
    as (Hout & Hmetrics & Hlen & _).
  exact (conj Hout (conj Hmetrics Hlen)).
Defined.

Lemma returning_cycle_has_released_every_connection_witness :
  opens (GatherInOrder brokenRowWorld cpuOnly).1.2.*2
  ≡ₚ releases (GatherInOrder brokenRowWorld cpuOnly).1.2.*2.
Proof.
  apply (returning_cycle_has_released_every_connection brokenRowWorld cpuOnly
           (initialize brokenRowWorld cpuOnly)).
  apply (GatherInOrder_returns brokenRowWorld cpuOnly eq_refl).
Defined.


(** ** The win_services plugin *)

Module WinServicesFacts.

Import win_services.

Section Facts.

Variable h : Host.
Implicit Types (m : WinServices) (scmgr : WinServiceManager) (t : list event).

(** With a filter, the loop of [listServices] keeps the names that match,
    in order. *)
Lemma keepMatching_Some (matches : string -> bool) (names : list string) :
  forall services,
    keepMatching (Some matches) names services
    = Done (services ++ List.filter matches names).
Proof.
  induction names as [|svc rest IH]; intros services; simpl.
  - by rewrite app_nil_r.
  - rewrite IH. destruct (matches svc); [|done]. by rewrite <- app_assoc.
Qed.

(** The events of one pass of the loop of [Gather]. *)
Lemma gatherService_readings scmgr (srvName : string) :
  records (gatherService h scmgr srvName) = option_list (recordOf h scmgr srvName) /\
  logged (gatherService h scmgr srvName) = option_list (logOf h scmgr srvName) /\
  opened (gatherService h scmgr srvName) = closed (gatherService h scmgr srvName) /\
  connects (gatherService h scmgr srvName) = 0%nat /\
  disconnects (gatherService h scmgr srvName) = 0%nat.
Proof.
  unfold gatherService, recordOf, logOf, collectServiceInfo.
  destruct (OpenService scmgr srvName) as [e|srv]; simpl.
  - by destruct (os_IsPermission h e).
  - destruct (srv_Query srv) as [e|state]; simpl.
    + by destruct (os_IsPermission h e).
    + destruct (srv_Config srv) as [e|cfg]; simpl; [|done].
      by destruct (os_IsPermission h e).
Qed.

Lemma loop_readings scmgr (names : list string) :
  records (flat_map (gatherService h scmgr) names) = omap (recordOf h scmgr) names /\
  logged (flat_map (gatherService h scmgr) names) = omap (logOf h scmgr) names /\
  opened (flat_map (gatherService h scmgr) names)
    = closed (flat_map (gatherService h scmgr) names) /\
  connects (flat_map (gatherService h scmgr) names) = 0%nat /\
  disconnects (flat_map (gatherService h scmgr) names) = 0%nat.
Proof.
  induction names as [|n names (IHr & IHl & IHo & IHc & IHd)]; [done|].
  destruct (gatherService_readings scmgr n) as (Hr & Hl & Ho & Hc & Hd).
  unfold records, logged, opened, closed, connects, disconnects in *. simpl.
  rewrite !omap_app, !length_app, Hr, Hl, Ho, IHr, IHl, IHo.
  split_and!; try done; try lia.
  - by destruct (recordOf h scmgr n).
  - by destruct (logOf h scmgr n).
Qed.

(** [Gather] case by case. *)
Lemma Gather_cases m :
  let init := match filter m with
              | None => initFilter h m
              | Some _ => (m, None)
              end in
  (Gather h m).1.1 = init.1 /\
  ((exists err, init.2 = Some err /\
      (Gather h m).1.2 = [] /\ (Gather h m).2 = Done (Some err)) \/
   (exists err, init.2 = None /\ Connect h = inl err /\
      (Gather h m).1.2 = [] /\
      (Gather h m).2 = Done (Some ("Could not open service manager: " +:+ err))) \/
   (exists scmgr err, init.2 = None /\ Connect h = inr scmgr /\
      ListServices scmgr = inl err /\
      (Gather h m).1.2 = [Connected; Disconnect] /\
      (Gather h m).2 = Done (Some ("Could not list services: " +:+ err))) \/
   (exists scmgr names, init.2 = None /\ Connect h = inr scmgr /\
      ListServices scmgr = inr names /\
      keepMatching (filter init.1) names [] = Panicked /\
      (Gather h m).1.2 = [Connected; Disconnect] /\ (Gather h m).2 = Panicked) \/
   (exists scmgr names serviceNames, init.2 = None /\ Connect h = inr scmgr /\
      ListServices scmgr = inr names /\
      keepMatching (filter init.1) names [] = Done serviceNames /\
      (Gather h m).1.2
        = Connected :: flat_map (gatherService h scmgr) serviceNames ++ [Disconnect] /\
      (Gather h m).2 = Done None)).
Proof.
  intros init. unfold Gather. fold init.
  destruct (init.2) as [err|] eqn:Hinit.
  - split; [done|]. left. eauto.
  - destruct (Connect h) as [err|scmgr] eqn:Hc.
    + split; [done|]. right; left. eauto 10.
    + split; [done|]. unfold listServices.
      destruct (ListServices scmgr) as [err|names] eqn:Hl.
      * right; right; left. exists scmgr, err. done.
      * destruct (keepMatching (filter init.1) names []) as [serviceNames|] eqn:Hk.
        -- right; right; right; right. exists scmgr, names, serviceNames. done.
        -- right; right; right; left. exists scmgr, names. done.
Qed.

Lemma wrapped_readings (body : list event) :
  records (Connected :: body ++ [Disconnect]) = records body /\
  logged (Connected :: body ++ [Disconnect]) = logged body /\
  opened (Connected :: body ++ [Disconnect]) = opened body /\
  closed (Connected :: body ++ [Disconnect]) = closed body /\
  connects (Connected :: body ++ [Disconnect]) = S (connects body) /\
  disconnects (Connected :: body ++ [Disconnect]) = S (disconnects body).
Proof.
  unfold records, logged, opened, closed, connects, disconnects. simpl.
  rewrite !omap_app, !length_app. simpl. rewrite !app_nil_r.
  split_and!; try done; lia.
Qed.

Lemma tagsOf_lookup (service : ServiceInfo) (k : string) :
  tagsOf service !! "service_name" = Some (ServiceName service) /\
  tagsOf service !! "display_name" <> Some "" /\
  (is_Some (tagsOf service !! k) -> k = "service_name" \/ k = "display_name").
Proof.
  unfold tagsOf. case_bool_decide as Hlen.
  - split_and!.
    + by rewrite lookup_insert_ne, lookup_singleton_eq.
    + rewrite lookup_insert_eq. intros [= Hd]. rewrite Hd in Hlen. simpl in Hlen. lia.
    + destruct (decide (k = "display_name")) as [->|Hk]; [auto|].
      rewrite lookup_insert_ne by done.
      destruct (decide (k = "service_name")) as [->|Hk']; [auto|].
      rewrite lookup_singleton_ne by done. by intros [? ?].
  - split_and!.
    + by rewrite lookup_singleton_eq.
    + by rewrite lookup_singleton_ne.
    + destruct (decide (k = "service_name")) as [->|Hk']; [auto|].
      rewrite lookup_singleton_ne by done. by intros [? ?].
Qed.

Lemma fieldsOf_lookup (service : ServiceInfo) (k : string) :
  is_Some (fieldsOf service !! k) <-> k = "state" \/ k = "startup_mode".
Proof.
  unfold fieldsOf. destruct (decide (k = "startup_mode")) as [->|Hk].
  - rewrite lookup_insert_eq. split; [auto|by eexists].
  - rewrite lookup_insert_ne by done.
    destruct (decide (k = "state")) as [->|Hk'].
    + rewrite lookup_singleton_eq. split; [auto|by eexists].
    + rewrite lookup_singleton_ne by done. split; [by intros [? ?]|]. by intros [?|?].
Qed.

End Facts.

(** X18: a cycle that reaches the service manager disconnects from it
    exactly once, as its last act, whether the services could be listed or
    not and whether the listing panicked; a cycle that does not reach it has
    nothing to disconnect. *)
Theorem manager_is_disconnected_exactly_once (h : Host) (m : WinServices) :
  connects (Gather h m).1.2 = disconnects (Gather h m).1.2 /\
  ((Gather h m).1.2 = [] \/
   (head (Gather h m).1.2 = Some Connected /\
    last (Gather h m).1.2 = Some Disconnect /\
    disconnects (Gather h m).1.2 = 1%nat)).
Proof.
  destruct (Gather_cases h m) as
    (_ & [(err & _ & -> & _)|[(err & _ & _ & -> & _)|[(scmgr & err & _ & _ & _ & -> & _)|
          [(scmgr & names & _ & _ & _ & _ & -> & _)|
           (scmgr & names & serviceNames & _ & _ & _ & _ & -> & _)]]]]).
  - split; [done|by left].
  - split; [done|by left].
  - split; [done|right; done].
  - split; [done|right; done].
  - destruct (loop_readings h scmgr serviceNames) as (_ & _ & _ & Hc & Hd).
    destruct (wrapped_readings (flat_map (gatherService h scmgr) serviceNames))
      as (_ & _ & _ & _ & Hc' & Hd').
    rewrite Hc', Hd', Hc, Hd. split; [done|]. right. split_and!; [done| |done].
    by rewrite app_comm_cons, last_snoc.
Qed.

(** X19: the services are gathered one by one, each on its own. Of the
    listed names the cycle takes those the filter matches, in order; it
    reports a record for each whose open, status and configuration succeed,
    logs one message for each where one of them fails and goes on to the
    next, and returns [nil]. *)
Theorem services_are_gathered_one_by_one
    (h : Host) (m : WinServices) (scmgr : WinServiceManager)
    (matches : string -> bool) (names : list string) :
  filter m = Some matches \/
  (filter m = None /\ filter_Compile h (compiledNames m) = (Some matches, None)) ->
  Connect h = inr scmgr ->
  ListServices scmgr = inr names ->
  (Gather h m).2 = Done None /\
  records (Gather h m).1.2 = omap (recordOf h scmgr) (List.filter matches names) /\
  logged (Gather h m).1.2 = omap (logOf h scmgr) (List.filter matches names).
Proof.
  intros Hf Hc Hl.
  assert (Hg : Gather h m
               = ((Gather h m).1.1,
                  Connected :: flat_map (gatherService h scmgr) (List.filter matches names)
                    ++ [Disconnect],
                  Done None)).
  { unfold Gather, listServices.
    destruct Hf as [Hf|[Hf Hcomp]]; rewrite Hf.
    - simpl. rewrite Hc, Hl, Hf, keepMatching_Some. done.
    - unfold initFilter. fold (compiledNames m). rewrite Hcomp. simpl.
      rewrite Hc, Hl, keepMatching_Some. done. }
  rewrite Hg. simpl.
  destruct (loop_readings h scmgr (List.filter matches names)) as (Hr & Hlog & _).
  destruct (wrapped_readings
              (flat_map (gatherService h scmgr) (List.filter matches names)))
    as (Hr' & Hlog' & _).
  split_and!; [done|..].
  - etrans; [exact Hr'|exact Hr].
  - etrans; [exact Hlog'|exact Hlog].
Qed.

(** X20: every service a cycle opens it closes again: the services closed
    are the services opened, in the same order, also where the status or the
    configuration of a service could not be read. *)
Theorem every_opened_service_is_closed (h : Host) (m : WinServices) :
  opened (Gather h m).1.2 = closed (Gather h m).1.2.
Proof.
  destruct (Gather_cases h m) as
    (_ & [(err & _ & -> & _)|[(err & _ & _ & -> & _)|[(scmgr & err & _ & _ & _ & -> & _)|
          [(scmgr & names & _ & _ & _ & _ & -> & _)|
           (scmgr & names & serviceNames & _ & _ & _ & _ & -> & _)]]]]); try done.
  destruct (loop_readings h scmgr serviceNames) as (_ & _ & Ho & _).
  destruct (wrapped_readings (flat_map (gatherService h scmgr) serviceNames))
    as (_ & _ & Ho' & Hc' & _).
  by rewrite Ho', Hc'.
Qed.

(** X21: every record of a cycle is a [win_services] record with a
    [service_name] tag, the two fields [state] and [startup_mode] and no
    other, and no tag besides [service_name] and [display_name]; the
    [display_name] tag is left out rather than reported empty. *)
Theorem reported_records_are_well_formed
    (h : Host) (m : WinServices)
    (name : string) (fields : gmap string Z) (tags : gmap string string) :
  (name, fields, tags) ∈ records (Gather h m).1.2 ->
  name = "win_services" /\
  is_Some (tags !! "service_name") /\
  tags !! "display_name" <> Some "" /\
  (forall k, is_Some (fields !! k) <-> k = "state" \/ k = "startup_mode") /\
  (forall k, is_Some (tags !! k) -> k = "service_name" \/ k = "display_name").
Proof.
  destruct (Gather_cases h m) as
    (_ & [(err & _ & -> & _)|[(err & _ & _ & -> & _)|[(scmgr & err & _ & _ & _ & -> & _)|
          [(scmgr & names & _ & _ & _ & _ & -> & _)|
           (scmgr & names & serviceNames & _ & _ & _ & _ & -> & _)]]]]);
    try (by intros ?%elem_of_nil).
  destruct (loop_readings h scmgr serviceNames) as (Hr & _).
  destruct (wrapped_readings (flat_map (gatherService h scmgr) serviceNames))
    as (Hr' & _).
  rewrite Hr', Hr. intros Hin.
  apply list_elem_of_omap in Hin as (srvName & _ & Hrec).
  unfold recordOf in Hrec.
  destruct ((collectServiceInfo h scmgr srvName).2) as [e|service]; [done|].
  injection Hrec as <- <- <-.
  split_and!; [done|..].
  - rewrite (proj1 (tagsOf_lookup service "")). by eexists.
  - apply (tagsOf_lookup service "").
  - intros k. apply fieldsOf_lookup.
  - intros k. apply tagsOf_lookup.
Qed.

(** X22: the filter is compiled on the first cycle and kept. With no
    service name configured the pattern [*] is compiled, and stays in the
    configuration; any later cycle, on any host, leaves names and filter as
    they are. *)
Theorem filter_is_compiled_once
    (h : Host) (m : WinServices) (matches : string -> bool) :
  filter m = None ->
  filter_Compile h (compiledNames m) = (Some matches, None) ->
  (Gather h m).1.1 = mkWinServices (compiledNames m) (Some matches) /\
  (ServiceNames m = [] -> ServiceNames (Gather h m).1.1 = ["*"]) /\
  (forall h', (Gather h' (Gather h m).1.1).1.1 = (Gather h m).1.1).
Proof.
  intros Hf Hcomp.
  assert (Hm : (Gather h m).1.1 = mkWinServices (compiledNames m) (Some matches)).
  { rewrite (proj1 (Gather_cases h m)), Hf. unfold initFilter.
    fold (compiledNames m). by rewrite Hcomp. }
  split_and!; [done| |].
  - intros Hnames. rewrite Hm. unfold compiledNames. by rewrite Hnames.
  - intros h'. rewrite Hm. by rewrite (proj1 (Gather_cases h' _)).
Qed.

(** X23: when a cycle returns an error it has looked at no service: the
    filter did not compile, the manager could not be reached, or the services
    could not be listed. Nothing is opened, reported or logged, and a failure
    of one service is never the error of the cycle. *)
Theorem an_error_means_no_service_was_tried
    (h : Host) (m : WinServices) (err : error) :
  (Gather h m).2 = Done (Some err) ->
  records (Gather h m).1.2 = [] /\
  logged (Gather h m).1.2 = [] /\
  opened (Gather h m).1.2 = [] /\
  ((Gather h m).1.2 = [] \/ (Gather h m).1.2 = [Connected; Disconnect]).
Proof.
  destruct (Gather_cases h m) as
    (_ & [(e & _ & -> & _)|[(e & _ & _ & -> & _)|[(scmgr & e & _ & _ & _ & -> & _)|
          [(scmgr & names & _ & _ & _ & _ & _ & ->)|
           (scmgr & names & serviceNames & _ & _ & _ & _ & _ & ->)]]]]);
    try done; intros _; split_and!; try done; auto.
Qed.

Lemma services_are_gathered_one_by_one_witness :
  (Gather exampleHost unconfigured).2 = Done None /\
  records (Gather exampleHost unconfigured).1.2
  = omap (recordOf exampleHost threeServices)
         (List.filter (fun name => negb (bool_decide (name = "Skipped")))
                      ["LanmanServer"; "Locked"; "Skipped"; "Silent"]) /\
  logged (Gather exampleHost unconfigured).1.2
  = omap (logOf exampleHost threeServices)
         (List.filter (fun name => negb (bool_decide (name = "Skipped")))
                      ["LanmanServer"; "Locked"; "Skipped"; "Silent"]).
Proof.
  apply (services_are_gathered_one_by_one exampleHost unconfigured threeServices
           (fun name => negb (bool_decide (name = "Skipped")))
           ["LanmanServer"; "Locked"; "Skipped"; "Silent"]
           (or_intror (conj eq_refl eq_refl)) eq_refl eq_refl).
Defined.

Lemma reported_records_are_well_formed_witness :
  (tagsOf (mkServiceInfo "Silent" "" 1 3) : gmap string string) !! "display_name"
  <> Some "".
Proof.
  apply (reported_records_are_well_formed exampleHost unconfigured "win_services"
           (fieldsOf (mkServiceInfo "Silent" "" 1 3))
           (tagsOf (mkServiceInfo "Silent" "" 1 3))).
  apply (bool_decide_unpack _). vm_compute. exact I.
Defined.

Lemma filter_is_compiled_once_witness :
  ServiceNames (Gather exampleHost unconfigured).1.1 = ["*"].
Proof.
  apply (proj1 (proj2 (filter_is_compiled_once exampleHost unconfigured
                  (fun name => negb (bool_decide (name = "Skipped")))
                  eq_refl eq_refl)) eq_refl).
Defined.

Lemma an_error_means_no_service_was_tried_witness :
  records (Gather unlistableHost unconfigured).1.2 = [] /\
  logged (Gather unlistableHost unconfigured).1.2 = [] /\
  opened (Gather unlistableHost unconfigured).1.2 = [] /\
  ((Gather unlistableHost unconfigured).1.2 = [] \/
   (Gather unlistableHost unconfigured).1.2 = [Connected; Disconnect]).
Proof.
  apply (an_error_means_no_service_was_tried unlistableHost unconfigured
           "Could not list services: RPC server unavailable" eq_refl).
Defined.

End WinServicesFacts.
